(** * covid-cli-service: storage, import and query engine

    A shallow embedding of the Go packages [lib] (database.go, types.go) and
    [lib/ecdc] (the ECDC importer), with the parts of the Go standard library
    and of SQLite they lean on, followed by the properties of the import and
    query paths.

    Conventions.
    - A Go [string] is a sequence of bytes: [string] of [ascii]; [len] is
      [String.length].
    - [int], [int64] and the [uint64] results of [strconv.ParseUint] are [Z]
      (64-bit platform; no arithmetic of the program leaves the range).
    - A [time.Time] is its Unix second count: every instant the program builds
      has a zero sub-second part.
    - A function returning [(T, error)] returns [result T]; a method on
      [*Database] is a computation in the state-and-error monad [M Database].
    - The SQLite connection is the pair of its tables and of a script of
      driver outcomes, consumed one entry per driver call; the empty script
      is a run without storage faults. *)

From Stdlib Require Import ZArith String Ascii List Lia Permutation Sorted.
From stdpp Require Import base gmap strings list sorting.

Import ListNotations.
Local Open Scope string_scope.
Local Open Scope list_scope.
Local Open Scope Z_scope.

(** ** Errors and results *)

Inductive numCause : Type := ErrSyntax | ErrRange.

Inductive error : Type :=
| NumError (func num : string) (cause : numCause)  (* *strconv.NumError *)
| DriverError (msg : string)                       (* reported by database/sql or SQLite *)
| ScanError (column : nat)                         (* sql: Scan error on column index ... *)
| ConstraintError                                  (* UNIQUE constraint failed: Cases.Date, Cases.CountryId *)
| NilDereference.                                  (* runtime error: invalid memory address or nil pointer dereference *)

Inductive result (A : Type) : Type :=
| Ok (a : A)
| Err (e : error).
Arguments Ok {A} a.
Arguments Err {A} e.

Definition isErr {A} (r : result A) : bool :=
  match r with Ok _ => false | Err _ => true end.

(** ** The state-and-error monad *)

Definition M (S A : Type) : Type := S -> S * result A.

Definition ret {S A} (a : A) : M S A := fun s => (s, Ok a).
Definition throw {S A} (e : error) : M S A := fun s => (s, Err e).
Definition bind {S A B} (m : M S A) (k : A -> M S B) : M S B :=
  fun s => match m s with
           | (s', Ok a) => k a s'
           | (s', Err e) => (s', Err e)
           end.
Definition lift {S A} (r : result A) : M S A := fun s => (s, r).
Definition gets {S A} (f : S -> A) : M S A := fun s => (s, Ok (f s)).

(** [catch m h]: the [if err != nil { ... }] block after a call. *)
Definition catch {S A} (m : M S A) (h : error -> M S A) : M S A :=
  fun s => match m s with
           | (s', Err e) => h e s'
           | r => r
           end.

(** A call whose error is dropped ([tx.Rollback()] as a statement). *)
Definition ignore {S A} (m : M S A) : M S unit :=
  fun s => (fst (m s), Ok tt).

Declare Scope go_scope.
Delimit Scope go_scope with go.
Notation "x <- m ;; k" := (bind m (fun x => k))
  (at level 100, m at next level, right associativity) : go_scope.
Notation "m ;;; k" := (bind m (fun _ => k))
  (at level 100, right associativity) : go_scope.
Local Open Scope go_scope.

(** ** package strconv *)

Module strconv.

Definition isDigit (c : ascii) : bool :=
  (48 <=? Z.of_nat (nat_of_ascii c)) && (Z.of_nat (nat_of_ascii c) <=? 57).

Definition digitVal (c : ascii) : Z := Z.of_nat (nat_of_ascii c) - 48.

(** The digit loop of [ParseUint] for base 10: [None] on a byte that is not a
    decimal digit. *)
Fixpoint digits (s : string) (n : Z) : option Z :=
  match s with
  | EmptyString => Some n
  | String c s' => if isDigit c then digits s' (n * 10 + digitVal c) else None
  end.

(** [strconv.ParseUint(s, 10, 32)]: no sign, no underscore (base is not 0),
    at least one digit, value below 2^32. *)
Definition ParseUint (s : string) : result Z :=
  match s with
  | EmptyString => Err (NumError "ParseUint" s ErrSyntax)
  | _ =>
    match digits s 0 with
    | None => Err (NumError "ParseUint" s ErrSyntax)
    | Some n => if n <? 2 ^ 32 then Ok n else Err (NumError "ParseUint" s ErrRange)
    end
  end.

End strconv.

(** ** What the program takes from its platform

    [strconv.ParseFloat] with the floating-point type it produces, the zone
    [time.Local] (taken as a fixed offset, in seconds east of UTC) and the
    Unicode case tables behind [strings.ToUpper] are parameters: no property
    below depends on how they are filled in. *)

Class GoRuntime : Type := {
  float64 : Type;
  float64_zero : float64;                       (* the constant 0 *)
  ParseFloat : string -> result float64;        (* strconv.ParseFloat(s, 64) *)
  Local : Z;                                    (* time.Local *)
  mapUnicodeToUpper : string -> string;         (* strings.Map(unicode.ToUpper, s) *)
}.

(** ** package strings *)

Module strings.
Section Strings.
Context `{GoRuntime}.

Definition byte (c : ascii) : Z := Z.of_nat (nat_of_ascii c).

(** [c < utf8.RuneSelf] *)
Definition isASCIIByte (c : ascii) : bool := byte c <? 128.
(** ['a' <= c && c <= 'z'] *)
Definition isLowerByte (c : ascii) : bool := (97 <=? byte c) && (byte c <=? 122).

Fixpoint all (p : ascii -> bool) (s : string) : bool :=
  match s with
  | EmptyString => true
  | String c s' => p c && all p s'
  end.

Fixpoint any (p : ascii -> bool) (s : string) : bool :=
  match s with
  | EmptyString => false
  | String c s' => p c || any p s'
  end.

Fixpoint mapBytes (f : ascii -> ascii) (s : string) : string :=
  match s with
  | EmptyString => EmptyString
  | String c s' => String (f c) (mapBytes f s')
  end.

(** [c -= 'a' - 'A'] on a lower-case byte *)
Definition upperByte (c : ascii) : ascii :=
  if isLowerByte c then ascii_of_nat (nat_of_ascii c - 32) else c.

(** [strings.ToUpper]: the ASCII-only fast path is the library's own code,
    anything else goes through the Unicode tables. *)
Definition ToUpper (s : string) : string :=
  if all isASCIIByte s then
    if negb (any isLowerByte s) then s else mapBytes upperByte s
  else mapUnicodeToUpper s.

End Strings.
End strings.

(** ** package time *)

Module time.
Section Time.
Context `{GoRuntime}.

Definition Time : Type := Z.

Definition secondsPerDay : Z := 86400.

Definition Unix (sec : Z) : Time := sec.
Definition Time_Unix (t : Time) : Z := t.
Definition Before (t u : Time) : bool := t <? u.

Definition isLeap (year : Z) : bool :=
  (year mod 4 =? 0) && (negb (year mod 100 =? 0) || (year mod 400 =? 0)).

(** [daysBefore[m]]: days in a non-leap year before month [m+1]. *)
Definition daysBefore (m : Z) : Z :=
  nth (Z.to_nat m) [0; 31; 59; 90; 120; 151; 181; 212; 243; 273; 304; 334; 365] 0.

(** [norm(hi, lo, base)]: carry [lo] into [hi] so that [0 <= lo < base]. *)
Definition norm (hi lo base : Z) : Z * Z := (hi + lo / base, lo mod base).

(** Days from 1970-01-01 to January 1 of [year] (proleptic Gregorian). *)
Definition daysSinceEpoch (year : Z) : Z :=
  let y := year - 1 in
  365 * y + y / 4 - y / 100 + y / 400 - 719162.

(** Days from 1970-01-01 to the given date; month and day may be outside
    their usual ranges and are carried over, as [time.Date] does. *)
Definition daysOfDate (year month day : Z) : Z :=
  let m := month - 1 in
  let '(year, m) := norm year m 12 in
  let month := m + 1 in
  daysSinceEpoch year
  + daysBefore (month - 1)
  + (if isLeap year && (3 <=? month) then 1 else 0)
  + (day - 1).

(** [time.Date(year, month, day, 0, 0, 0, 0, time.Local)] *)
Definition Date (year month day : Z) : Time :=
  daysOfDate year month day * secondsPerDay - Local.

(** [absDate], first half: the year of a day count and the day within it,
    by cycles of 400, 100, 4 and 1 years. *)
Definition yearAndDay (days : Z) : Z * Z :=
  let d := days + 719162 in
  let n400 := d / 146097 in
  let d := d - 146097 * n400 in
  let n100 := d / 36524 in
  let n100 := n100 - n100 / 4 in
  let d := d - 36524 * n100 in
  let n4 := d / 1461 in
  let d := d - 1461 * n4 in
  let n1 := d / 365 in
  let n1 := n1 - n1 / 4 in
  let d := d - 365 * n1 in
  (400 * n400 + 100 * n100 + 4 * n4 + n1 + 1, d).

(** [absDate], second half: month and day of the month of day [yday] of a
    year that is a leap year or not. *)
Definition monthAndDay (leap : bool) (yday : Z) : Z * Z :=
  if leap && (yday =? 31 + 29 - 1) then (2, 29)
  else
    let day := if leap && (31 + 29 - 1 <? yday) then yday - 1 else yday in
    let month := day / 31 in
    let end_ := daysBefore (month + 1) in
    if end_ <=? day then (month + 2, day - end_ + 1)
    else (month + 1, day - daysBefore month + 1).

Definition dateOfDays (days : Z) : Z * Z * Z :=
  let '(year, yday) := yearAndDay days in
  let '(month, day) := monthAndDay (isLeap year) yday in
  (year, month, day).

(** [t.Date()]: year, month and day of [t] in [time.Local]. *)
Definition Time_Date (t : Time) : Z * Z * Z :=
  dateOfDays ((t + Local) / secondsPerDay).

End Time.
End time.

(** ** The SQLite store behind [database/sql]

    The two tables of the schema that [NewDatabase] creates, the queries and
    statements the program issues against them, and the driver calls
    ([Begin], [Query], [Next], [Scan], [Prepare], [Exec], [Commit],
    [Rollback]) with their failures. *)

Module sql.
Section SQL.
Context `{GoRuntime}.

(** Countries (Id INTEGER PRIMARY KEY AUTOINCREMENT, Code, GeoId,
    Name COLLATE NOCASE, Population, Continent) *)
Record CountriesRow : Type := {
  Id : Z;
  Code : string;
  GeoId : string;
  Name : string;
  Population : Z;
  Continent : string;
}.

(** Cases (Date, CountryId, Cases, Deaths, Cumulative,
    PRIMARY KEY (Date, CountryId)) *)
Record CasesRow : Type := {
  Date : Z;
  CountryId : Z;
  Cases : Z;
  Deaths : Z;
  Cumulative : float64;
}.

(** [seqCountries] is the sqlite_sequence entry that AUTOINCREMENT keeps for
    Countries: the largest Id ever handed out. *)
Record Tables : Type := {
  tblCountries : list CountriesRow;
  seqCountries : Z;
  tblCases : list CasesRow;
}.

(** The connection: the tables and the outcomes of the driver calls to come
    ([None]: the call succeeds; [Some e]: it fails with [e]; past the end of
    the script every call succeeds). *)
Record DB : Type := {
  tables : Tables;
  outcomes : list (option error);
}.

Definition withTables (t : Tables) (d : DB) : DB :=
  {| tables := t; outcomes := outcomes d |}.

(** *** Collation *)

(** SQLite's NOCASE folds the 26 upper-case ASCII letters and nothing else. *)
Definition lowerByte (c : ascii) : ascii :=
  if (65 <=? strings.byte c) && (strings.byte c <=? 90)
  then ascii_of_nat (nat_of_ascii c + 32) else c.

Definition nocase (s : string) : string := strings.mapBytes lowerByte s.

(** *** The queries *)

(** FROM Cases INNER JOIN Countries ON Cases.CountryId = Countries.Id *)
Definition casesJoinCountries (t : Tables) : list (CasesRow * CountriesRow) :=
  c ← tblCases t;
  (fun k => (c, k)) <$> filter (fun k => Id k = CountryId c) (tblCountries t).

(** The orders of the ORDER BY clauses. *)
Definition byIdDesc (a b : CountriesRow) : Prop := Id b <= Id a.
Definition desc (a b : Z) : Prop := b <= a.
Definition byDateAsc (a b : CasesRow) : Prop := Date a <= Date b.

#[global] Instance byIdDesc_dec a b : Decision (byIdDesc a b).
Proof. unfold byIdDesc; apply _. Defined.
#[global] Instance desc_dec a b : Decision (desc a b).
Proof. unfold desc; apply _. Defined.
#[global] Instance byDateAsc_dec a b : Decision (byDateAsc a b).
Proof. unfold byDateAsc; apply _. Defined.

(** SELECT Id, Code, GeoId, Name, Population, Continent FROM Countries
    WHERE Code = ? ORDER BY Id DESC LIMIT 1 *)
Definition selectCurrentRevision (code : string) (t : Tables) : list CountriesRow :=
  take 1 (merge_sort byIdDesc (filter (fun k => Code k = code) (tblCountries t))).

(** SELECT Id, Code, GeoId, Name, Population, Continent FROM Countries
    WHERE Id = ? *)
Definition selectCountryByID (id : Z) (t : Tables) : list CountriesRow :=
  filter (fun k => Id k = id) (tblCountries t).

(** SELECT Cases.Date FROM Cases INNER JOIN Countries
    ON Cases.CountryId = Countries.Id
    WHERE Countries.Code = ? ORDER BY Date DESC LIMIT 1 *)
Definition selectLastDate (code : string) (t : Tables) : list Z :=
  take 1 (merge_sort desc
            ((fun p => Date (fst p))
               <$> filter (fun p => Code (snd p) = code) (casesJoinCountries t))).

(** The column a records query compares with its key. *)
Inductive column : Type := Countries_Code | Countries_GeoID | Countries_Name.

(** [column = ?]: binary comparison for Code and GeoId, NOCASE for Name. *)
Definition columnIs (col : column) (key : string) (k : CountriesRow) : Prop :=
  match col with
  | Countries_Code => Code k = key
  | Countries_GeoID => GeoId k = key
  | Countries_Name => nocase (Name k) = nocase key
  end.

#[global] Instance columnIs_dec col key k : Decision (columnIs col key k).
Proof. destruct col; simpl; apply _. Defined.

(** SELECT Cases.CountryId, Cases.Date, Cases.Cases, Cases.Deaths,
    Cases.Cumulative FROM Cases INNER JOIN Countries
    ON Cases.CountryId = Countries.Id
    WHERE <column> = ? AND Cases.Date >= ? ORDER BY Date ASC

    Rows of equal date come out in an order SQLite leaves open. *)
Definition selectCasesSince (col : column) (key : string) (since : Z) (t : Tables)
  : list CasesRow :=
  merge_sort byDateAsc
    (fst <$> filter (fun p => columnIs col key (snd p) /\ since <= Date (fst p))
               (casesJoinCountries t)).

(** *** The statements *)

(** The Id AUTOINCREMENT gives the next row: one more than the largest Id
    the table has ever held. *)
Definition nextCountryId (t : Tables) : Z :=
  Z.max (seqCountries t) (foldr Z.max 0 (Id <$> tblCountries t)) + 1.

(** INSERT INTO Countries (Code, GeoID, Name, Population, Continent)
    VALUES (?, ?, ?, ?, ?) *)
Definition insertCountry (code geoId name : string) (population : Z) (continent : string)
    (t : Tables) : Tables * Z :=
  let id := nextCountryId t in
  ({| tblCountries := tblCountries t ++
        [{| Id := id; Code := code; GeoId := geoId; Name := name;
            Population := population; Continent := continent |}];
      seqCountries := id;
      tblCases := tblCases t |}, id).

Definition sameKey (a b : CasesRow) : Prop :=
  Date a = Date b /\ CountryId a = CountryId b.

(** INSERT INTO Cases (CountryId, Date, Cases, Deaths, Cumulative)
    VALUES (?, ?, ?, ?, ?): refused when the primary key is taken. The
    FOREIGN KEY clause of the schema is not enforced (SQLite's default). *)
Definition insertCase (r : CasesRow) (t : Tables) : result Tables :=
  if decide (Exists (sameKey r) (tblCases t)) then Err ConstraintError
  else Ok {| tblCountries := tblCountries t;
             seqCountries := seqCountries t;
             tblCases := tblCases t ++ [r] |}.

(** *** Driver calls *)

(** Any call into the driver takes the next outcome of the script. *)
Definition call : M DB unit :=
  fun d => match outcomes d with
           | [] => (d, Ok tt)
           | None :: o => ({| tables := tables d; outcomes := o |}, Ok tt)
           | Some e :: o => ({| tables := tables d; outcomes := o |}, Err e)
           end.

(** A transaction is known by the tables it started from: statements run on
    the live tables, [Rollback] and a failed [Commit] put the start back. *)
Definition Tx : Type := Tables.

Definition Begin : M DB Tx := call ;;; gets tables.

Definition Commit (tx : Tx) : M DB unit :=
  fun d => match call d with
           | (d', Err e) => (withTables tx d', Err e)
           | r => r
           end.

Definition Rollback (tx : Tx) : M DB unit :=
  fun d => call (withTables tx d).

Definition Prepare : M DB unit := call.

(** [Query]: the cursor holds the rows of the result, in order. *)
Definition Query {R} (select : Tables -> list R) : M DB (list R) :=
  call ;;; gets (fun d => select (tables d)).

(** [rows.Next()]: the next row and the rest of the cursor, or [None] for
    [false]. A failed step also answers [false]; the error is kept for
    [rows.Err()]. *)
Definition Next {R} (rows : list R) : M DB (option (R * list R)) :=
  fun d => match call d with
           | (d', Err _) => (d', Ok None)
           | (d', Ok _) =>
             (d', Ok match rows with
                     | [] => None
                     | r :: rows' => Some (r, rows')
                     end)
           end.

(** [rows.Scan(...)]: the conversion of the current row. *)
Definition Scan : M DB unit := call.

Definition ExecInsertCountry (code geoId name : string) (population : Z)
    (continent : string) : M DB Z :=
  call ;;;
  fun d => let '(t, id) := insertCountry code geoId name population continent (tables d) in
           (withTables t d, Ok id).

(** [res.LastInsertId()] *)
Definition LastInsertId (id : Z) : M DB Z := call ;;; ret id.

Definition ExecInsertCase (r : CasesRow) : M DB unit :=
  call ;;;
  fun d => match insertCase r (tables d) with
           | Ok t => (withTables t d, Ok tt)
           | Err e => (d, Err e)
           end.

(** The tables [NewDatabase] leaves in a new file. *)
Definition empty : Tables :=
  {| tblCountries := []; seqCountries := 0; tblCases := [] |}.

End SQL.
End sql.

(** ** package lib: types.go and database.go *)

Module lib.
Section Lib.
Context `{GoRuntime}.

(** Country contains basic information about country *)
Record Country : Type := {
  ID : Z;
  Code : string;
  GeoID : string;
  Name : string;
  Population : Z;
  Continent : string;
}.

(** CovidStatisticsRecord contains daily COVID statistics per country.
    The field [Country *Country] is [CountryPtr]; [None] is [nil]. *)
Record CovidStatisticsRecord : Type := {
  Date : time.Time;
  Cases : Z;
  Deaths : Z;
  Cumulative : float64;
  CountryPtr : option Country;
}.

(** CovidStatisticsRecordResult contains statistics lookup result or
    possible error *)
Record CovidStatisticsRecordResult : Type := {
  Result : CovidStatisticsRecord;
  Error : option error;
}.

(** Database contains COVID case statistics. The statement cache holds
    prepared statements only and is left out. *)
Record Database : Type := {
  database : sql.DB;
  countryCache : gmap Z Country;
}.

(** CountryQueryType defines country query (by id/geo id/name) *)
Inductive CountryQueryType : Type :=
| CountryQueryByID
| CountryQueryByGeoID
| CountryQueryByName.

(** CountryQuery defines tagged union for database queries *)
Record CountryQuery : Type := {
  QueryType : CountryQueryType;
  Query : string;
}.

(** A driver call made through [db.database]. *)
Definition zoom {A} (m : M sql.DB A) : M Database A :=
  fun db => let '(d, r) := m (database db) in
            ({| database := d; countryCache := countryCache db |}, r).

(** [db.countryCache[id] = country] *)
Definition cachePut (id : Z) (country : Country) : M Database unit :=
  fun db => ({| database := database db;
                countryCache := <[id := country]> (countryCache db) |}, Ok tt).

Definition countryOfRow (k : sql.CountriesRow) : Country :=
  {| ID := sql.Id k; Code := sql.Code k; GeoID := sql.GeoId k; Name := sql.Name k;
     Population := sql.Population k; Continent := sql.Continent k |}.

(** [res.Scan(&country.ID, &country.Code, &country.GeoID, &country.Name,
    &country.Population, &country.Continent)] with its error checked. *)
Definition scanCountry (k : sql.CountriesRow) : M Database Country :=
  zoom sql.Scan ;;; ret (countryOfRow k).

(** What a failed [Scan] has stored by the time it gives up: the columns
    before the one it fails on. *)
Definition partialCountry (e : error) (k : sql.CountriesRow) : Country :=
  let upto := match e with ScanError column => column | _ => 0%nat end in
  {| ID := if (0 <? upto)%nat then sql.Id k else 0;
     Code := if (1 <? upto)%nat then sql.Code k else "";
     GeoID := if (2 <? upto)%nat then sql.GeoId k else "";
     Name := if (3 <? upto)%nat then sql.Name k else "";
     Population := if (4 <? upto)%nat then sql.Population k else 0;
     Continent := if (5 <? upto)%nat then sql.Continent k else "" |}.

(** Country looks for the most recent country information. The error of
    [Scan] is not looked at. *)
Definition Database_Country (code : string) : M Database (option Country) :=
  res <- zoom (sql.Query (sql.selectCurrentRevision code)) ;;
  next <- zoom (sql.Next res) ;;
  match next with
  | Some (k, _) =>
    fun db => match zoom sql.Scan db with
              | (db', Err e) => (db', Ok (Some (partialCountry e k)))
              | (db', Ok _) => (db', Ok (Some (countryOfRow k)))
              end
  | None => ret None
  end.

(** CountryByID looks for country information for specified ID *)
Definition CountryByID (id : Z) : M Database (option Country) :=
  fun db =>
    match countryCache db !! id with
    | Some country => (db, Ok (Some country))
    | None =>
      (res <- zoom (sql.Query (sql.selectCountryByID id)) ;;
       next <- zoom (sql.Next res) ;;
       match next with
       | Some (k, _) =>
         country <- scanCountry k ;;
         cachePut id country ;;;
         ret (Some country)
       | None => ret None
       end) db
    end.

Definition withID (id : Z) (country : Country) : Country :=
  {| ID := id; Code := Code country; GeoID := GeoID country; Name := Name country;
     Population := Population country; Continent := Continent country |}.

(** [newCountryRecord(tx, country)]: the country comes back with its ID
    filled in, as the caller sees it through the pointer. *)
Definition newCountryRecord (country : Country) : M Database Country :=
  zoom sql.Prepare ;;;
  res <- zoom (sql.ExecInsertCountry (Code country) (GeoID country) (Name country)
                 (Population country) (Continent country)) ;;
  id <- zoom (sql.LastInsertId res) ;;
  let country := withID id country in
  cachePut id country ;;;
  ret country.

(** [tx.Rollback(); return nil, err] *)
Definition rollbackAndReturn {A} (tx : sql.Tx) (e : error) : M Database A :=
  zoom (ignore (sql.Rollback tx)) ;;; throw e.

(** PutCountry creates new country in database, or create a new revision of
    existing one *)
Definition PutCountry (code geoID name : string) (population : Z) (continent : string)
  : M Database Country :=
  let country := {| ID := 0; Code := code; GeoID := geoID; Name := name;
                    Population := population; Continent := continent |} in
  tx <- zoom sql.Begin ;;
  res <- zoom (sql.Query (sql.selectCurrentRevision code)) ;;
  hasCurrentRevision <- zoom (sql.Next res) ;;
  match hasCurrentRevision with
  | Some (k, _) =>
    currentRevision <- catch (scanCountry k) (rollbackAndReturn tx) ;;
    if negb (String.eqb (GeoID currentRevision) geoID)
       || negb (String.eqb (Name currentRevision) name)
       || negb (Population currentRevision =? population)
       || negb (String.eqb (Continent currentRevision) continent)
    then
      country <- catch (newCountryRecord country) (rollbackAndReturn tx) ;;
      zoom (sql.Commit tx) ;;;
      ret country
    else
      zoom (sql.Rollback tx) ;;;
      ret currentRevision
  | None =>
    country <- catch (newCountryRecord country) (rollbackAndReturn tx) ;;
    zoom (sql.Commit tx) ;;;
    ret country
  end.

Definition normalizeDate (timestamp : time.Time) : time.Time :=
  let '(year, month, day) := time.Time_Date timestamp in
  time.Date year month day.

(** The row [insertStmt.Exec(record.Country.ID,
    normalizeDate(record.Date).Unix(), record.Cases, record.Deaths,
    record.Cumulative)] inserts. *)
Definition caseRow (country : Country) (record : CovidStatisticsRecord) : sql.CasesRow :=
  {| sql.Date := time.Time_Unix (normalizeDate (Date record));
     sql.CountryId := ID country;
     sql.Cases := Cases record;
     sql.Deaths := Deaths record;
     sql.Cumulative := Cumulative record |}.

(** The loop of [ImportRecords]. A record without a country makes
    [record.Country.ID] panic: the run ends there with the transaction open,
    which SQLite discards. *)
Fixpoint insertRecords (tx : sql.Tx) (records : list CovidStatisticsRecord)
  : M Database unit :=
  match records with
  | [] => ret tt
  | record :: rest =>
    match CountryPtr record with
    | None => rollbackAndReturn tx NilDereference
    | Some country =>
      catch (zoom (sql.ExecInsertCase (caseRow country record))) (rollbackAndReturn tx) ;;;
      insertRecords tx rest
    end
  end.

(** ImportRecords inserts an array of records as a signle transaction *)
Definition ImportRecords (records : list CovidStatisticsRecord) : M Database unit :=
  tx <- zoom sql.Begin ;;
  zoom sql.Prepare ;;;
  insertRecords tx records ;;;
  zoom (sql.Commit tx).

Definition epochStart : time.Time := time.Unix 0.

(** LastRecordDate returns date of last records for country *)
Definition LastRecordDate (countryCode : string) : M Database time.Time :=
  res <- zoom (sql.Query (sql.selectLastDate countryCode)) ;;
  next <- zoom (sql.Next res) ;;
  match next with
  | None => ret epochStart
  | Some (timestamp, _) =>
    zoom sql.Scan ;;;
    ret (time.Unix timestamp)
  end.

(** The column the switch of [RetrieveRecordsSince] picks. *)
Definition countryQuery (t : CountryQueryType) : sql.column :=
  match t with
  | CountryQueryByGeoID => sql.Countries_GeoID
  | CountryQueryByName => sql.Countries_Name
  | _ => sql.Countries_Code
  end.

(** The zero value of [CovidStatisticsRecord]; the zero [time.Time] is
    January 1, year 1, 00:00 UTC. *)
Definition zeroRecord : CovidStatisticsRecord :=
  {| Date := -62135596800; Cases := 0; Deaths := 0;
     Cumulative := float64_zero; CountryPtr := None |}.

Definition errorResult (e : error) : CovidStatisticsRecordResult :=
  {| Result := zeroRecord; Error := Some e |}.

(** The goroutine of [RetrieveRecordsSince]: what it sends on the channel
    before it closes it. *)
Fixpoint produce (res : list sql.CasesRow) : M Database (list CovidStatisticsRecordResult) :=
  next <- zoom (sql.Next res) ;;
  match next, res with
  | Some (r, _), _ :: res' =>
    fun db =>
      match zoom sql.Scan db with
      | (db1, Err e) => (db1, Ok [errorResult e])
      | (db1, Ok _) =>
        match CountryByID (sql.CountryId r) db1 with
        | (db2, Err e) => (db2, Ok [errorResult e])
        | (db2, Ok country) =>
          match produce res' db2 with
          | (db3, Ok rest) =>
            (db3, Ok ({| Result := {| CountryPtr := country;
                                      Date := time.Unix (sql.Date r);
                                      Cases := sql.Cases r;
                                      Deaths := sql.Deaths r;
                                      Cumulative := sql.Cumulative r |};
                         Error := None |} :: rest))
          | (db3, Err e) => (db3, Err e)
          end
        end
      end
  | _, _ => ret []
  end.

(** RetrieveRecordsSince collects country statistics from the database.
    The channel is given as the list of what is sent on it. *)
Definition RetrieveRecordsSince (query : CountryQuery) (since : time.Time)
  : M Database (list CovidStatisticsRecordResult) :=
  let sinceDate := normalizeDate since in
  res <- zoom (sql.Query (sql.selectCasesSince (countryQuery (QueryType query))
                            (Query query) (time.Time_Unix sinceDate))) ;;
  produce res.

(** RetrieveRecords collects country statistics from the database *)
Definition RetrieveRecords (query : CountryQuery) : M Database (list CovidStatisticsRecordResult) :=
  RetrieveRecordsSince query (time.Unix 0).

(** NewQuery constructs new country query based on query string *)
Definition NewQuery (query : string) : CountryQuery :=
  if (Z.of_nat (String.length query) =? 2) && String.eqb (strings.ToUpper query) query then
    {| Query := query; QueryType := CountryQueryByGeoID |}
  else if (Z.of_nat (String.length query) =? 3) && String.eqb (strings.ToUpper query) query then
    {| Query := query; QueryType := CountryQueryByID |}
  else
    {| Query := query; QueryType := CountryQueryByName |}.

(** The [Database] that [NewDatabase] returns on a new file: empty tables,
    empty cache. *)
Definition emptyDatabase (outcomes : list (option error)) : Database :=
  {| database := {| sql.tables := sql.empty; sql.outcomes := outcomes |};
     countryCache := ∅ |}.

End Lib.
End lib.

(** ** package ecdc: the importer *)

Module ecdc.
Section Ecdc.
Context `{GoRuntime}.

(** Record contains ECDC COVID statistics for a single country per day *)
Record Record : Type := {
  Date : string;
  Day : string;
  Month : string;
  Year : string;
  Cases : Z;
  Deaths : Z;
  CountryName : string;
  GeoID : string;
  CountryCode : string;
  Population : Z;
  Continent : string;
  CumulativeCases : string;
}.

Record ecdcImporter : Type := {
  db : lib.Database;
  records : list Record;
  lastRecordCache : gmap string time.Time;
}.

Definition rbind {A B} (r : result A) (k : A -> result B) : result B :=
  match r with
  | Ok a => k a
  | Err e => Err e
  end.

(** Timestamp extracts timestamp from record *)
Definition Timestamp (record : Record) : result time.Time :=
  rbind (strconv.ParseUint (Day record)) (fun day =>
  rbind (strconv.ParseUint (Month record)) (fun month =>
  rbind (strconv.ParseUint (Year record)) (fun year =>
  Ok (time.Date year month day)))).

(** A call made through [importer.db]. *)
Definition onDb {A} (m : M lib.Database A) : M ecdcImporter A :=
  fun importer =>
    let '(d, r) := m (db importer) in
    ({| db := d; records := records importer;
        lastRecordCache := lastRecordCache importer |}, r).

Definition cachePut (countryCode : string) (timestamp : time.Time) : M ecdcImporter unit :=
  fun importer =>
    ({| db := db importer; records := records importer;
        lastRecordCache := <[countryCode := timestamp]> (lastRecordCache importer) |}, Ok tt).

Definition lastRecordTime (countryCode : string) : M ecdcImporter time.Time :=
  fun importer =>
    match lastRecordCache importer !! countryCode with
    | Some timestamp => (importer, Ok timestamp)
    | None =>
      (timestamp <- onDb (lib.LastRecordDate countryCode) ;;
       cachePut countryCode timestamp ;;;
       ret timestamp) importer
    end.

(** [cumulative] after the [if len(record.CumulativeCases) > 0] block. *)
Definition cumulativeOf (record : Record) : result float64 :=
  if 0 <? Z.of_nat (String.length (CumulativeCases record))
  then ParseFloat (CumulativeCases record)
  else Ok float64_zero.

(** The loop of [Import] over the records still to come, with
    [recordsForImport] as built so far. *)
Fixpoint importLoop (rs : list Record) (recordsForImport : list lib.CovidStatisticsRecord)
  : M ecdcImporter (list lib.CovidStatisticsRecord) :=
  match rs with
  | [] => ret recordsForImport
  | record :: rest =>
    lastRecord <- lastRecordTime (CountryCode record) ;;
    timestamp <- lift (Timestamp record) ;;
    cumulative <- lift (cumulativeOf record) ;;
    if negb (time.Before lastRecord timestamp) then
      importLoop rest recordsForImport
    else
      country <- onDb (lib.PutCountry (CountryCode record) (GeoID record)
                         (CountryName record) (Population record) (Continent record)) ;;
      importLoop rest
        (recordsForImport ++
           [{| lib.CountryPtr := Some country;
               lib.Date := timestamp;
               lib.Cases := Cases record;
               lib.Deaths := Deaths record;
               lib.Cumulative := cumulative |}])
  end.

Definition Import : M ecdcImporter unit :=
  fun importer =>
    (recordsForImport <- importLoop (records importer) [] ;;
     onDb (lib.ImportRecords recordsForImport)) importer.

(** [DataSource.Import]: a new importer, with an empty cache, run on the
    records the source has fetched. *)
Definition DataSource_Import (rs : list Record) : M lib.Database unit :=
  fun d =>
    let '(importer, r) :=
      Import {| db := d; records := rs; lastRecordCache := ∅ |} in
    (db importer, r).

End Ecdc.
End ecdc.

(** ** A platform for the examples

    UTC as the local zone, plain decimal literals for [ParseFloat], and
    strings of ASCII only. *)

Module examples.

Record decimal : Type := { mantissa : Z; scale : nat }.

(** Splits a literal at its first point. *)
Fixpoint splitPoint (s : string) : string * option string :=
  match s with
  | EmptyString => (EmptyString, None)
  | String c s' =>
    if Ascii.eqb c "."%char then (EmptyString, Some s')
    else let '(a, b) := splitPoint s' in (String c a, b)
  end.

Definition parseDecimal (s : string) : result decimal :=
  let '(whole, fraction) := splitPoint s in
  let fraction := default EmptyString fraction in
  match whole, strconv.digits (whole ++ fraction) 0 with
  | String _ _, Some n => Ok {| mantissa := n; scale := String.length fraction |}
  | _, _ => Err (NumError "ParseFloat" s ErrSyntax)
  end.

Definition utc : GoRuntime :=
  {| float64 := decimal;
     float64_zero := {| mantissa := 0; scale := 0 |};
     ParseFloat := parseDecimal;
     Local := 0;
     mapUnicodeToUpper := fun s => s |}.

Definition record (code geoId name : string) (day month year : string)
    (cases deaths : Z) (cumulative : string) : @ecdc.Record :=
  {| ecdc.Date := ""; ecdc.Day := day; ecdc.Month := month; ecdc.Year := year;
     ecdc.Cases := cases; ecdc.Deaths := deaths; ecdc.CountryName := name;
     ecdc.GeoID := geoId; ecdc.CountryCode := code; ecdc.Population := 83019213;
     ecdc.Continent := "Europe"; ecdc.CumulativeCases := cumulative |}.

(** The scenario of the specification: Germany, January 1 to 3 of 2021. *)
Definition deu (day : string) (cases deaths : Z) (cumulative : string) : ecdc.Record :=
  record "DEU" "DE" "Germany" day "1" "2021" cases deaths cumulative.

Definition deu123 : list ecdc.Record :=
  [deu "1" 10 1 ""; deu "2" 20 2 "5.5"; deu "3" 30 3 "6.1"].

(** A new database, on a storage that never fails. *)
Definition newDb : lib.Database := @lib.emptyDatabase utc [].

(** The database after the import of [deu123] into [newDb]. *)
Definition deuDb : lib.Database := fst (@ecdc.DataSource_Import utc deu123 newDb).

(** A batch of one record, dated January 1, 1969. *)
Definition deu1969 : list ecdc.Record :=
  [record "DEU" "DE" "Germany" "1" "1" "1969" 10 1 ""].

(** A batch that holds the same day twice, and an importer about to run on
    it. *)
Definition deuTwice : list ecdc.Record := [deu "1" 10 1 ""; deu "1" 10 1 ""].

Definition deuTwiceImporter : ecdc.ecdcImporter :=
  {| ecdc.db := newDb; ecdc.records := deuTwice; ecdc.lastRecordCache := ∅ |}.

(** A batch whose second record has a month that is not a number. *)
Definition deuBadMonth : list ecdc.Record :=
  [deu "1" 10 1 ""; record "DEU" "DE" "Germany" "2" "Jan" "2021" 20 2 "5.5"].

(** [deuDb] on a storage whose fourth call fails: in a records query, that
    is the second step of the cursor. *)
Definition deuDbFailingStep : lib.Database :=
  {| lib.database :=
       {| sql.tables := sql.tables (lib.database deuDb);
          sql.outcomes := [None; None; None; Some (DriverError "disk I/O error")] |};
     lib.countryCache := lib.countryCache deuDb |}.

End examples.

(** * Specification vocabulary

    The notions the properties below are stated with: what the queries
    answer on a store that does not fail, the constraints of the schema, and
    the facts a batch stands for. *)

Section Vocabulary.
Context `{GoRuntime}.

(** A predicate holds on [lo, lo + 2^k). *)
Fixpoint allRange (k : nat) (lo : Z) (p : Z -> bool) : bool :=
  match k with
  | O => p lo
  | S k' => allRange k' lo p && allRange k' (lo + 2 ^ Z.of_nat k') p
  end.

(** The round trip on day [i] of the 400-year cycle that starts on
    January 1 of year 1. *)
Definition cycleOk (i : Z) : bool :=
  if 146097 <=? i then true
  else
    let '(y, m, d) := time.dateOfDays (i - 719162) in
    time.daysOfDate y m d =? i - 719162.

(** The dates of the facts recorded under a country code, over all the
    versions of the country. *)
Definition datesOf (code : string) (t : sql.Tables) : list Z :=
  (fun p => sql.Date (fst p))
    <$> filter (fun p => sql.Code (snd p) = code) (sql.casesJoinCountries t).

(** What [LastRecordDate] answers when the storage does not fail. *)
Definition lastDate (code : string) (t : sql.Tables) : Z :=
  match sql.selectLastDate code t with
  | [] => 0
  | timestamp :: _ => timestamp
  end.

Definition tablesOf (db : lib.Database) : sql.Tables := sql.tables (lib.database db).
Definition quiet (db : lib.Database) : Prop := sql.outcomes (lib.database db) = [].

(** The attribute test of [PutCountry]: some attribute of the current
    revision differs from the one put. *)
Definition differs (k : sql.CountriesRow) (geoID name : string) (population : Z)
    (continent : string) : bool :=
  negb (String.eqb (sql.GeoId k) geoID)
  || negb (String.eqb (sql.Name k) name)
  || negb (sql.Population k =? population)
  || negb (String.eqb (sql.Continent k) continent).

(** The country a successful [newCountryRecord] hands back, and the
    database it leaves once committed. *)
Definition minted (code geoID name : string) (population : Z) (continent : string)
    (db : lib.Database) : lib.Country :=
  {| lib.ID := sql.nextCountryId (tablesOf db); lib.Code := code; lib.GeoID := geoID;
     lib.Name := name; lib.Population := population; lib.Continent := continent |}.

Definition afterMint (code geoID name : string) (population : Z) (continent : string)
    (db : lib.Database) : lib.Database :=
  {| lib.database :=
       {| sql.tables := fst (sql.insertCountry code geoID name population continent (tablesOf db));
          sql.outcomes := sql.outcomes (lib.database db) |};
     lib.countryCache :=
       <[sql.nextCountryId (tablesOf db) := minted code geoID name population continent db]>
         (lib.countryCache db) |}.

Definition rowOfCountry (c : lib.Country) : sql.CountriesRow :=
  {| sql.Id := lib.ID c; sql.Code := lib.Code c; sql.GeoId := lib.GeoID c;
     sql.Name := lib.Name c; sql.Population := lib.Population c;
     sql.Continent := lib.Continent c |}.

(** What [Database.Country] answers when the storage does not fail. *)
Definition currentVersion (code : string) (t : sql.Tables) : option lib.Country :=
  match sql.selectCurrentRevision code t with
  | [] => None
  | k :: _ => Some (lib.countryOfRow k)
  end.

(** The outcome of [PutCountry] when it mints a version: the new row is
    appended under a fresh, higher Id, facts are untouched, and the row
    is the current version of its code from then on. *)
Definition mintsVersion (code geoID name : string) (population : Z) (continent : string)
    (db : lib.Database) : Prop :=
  exists db' c,
    lib.PutCountry code geoID name population continent db = (db', Ok c) /\
    lib.Code c = code /\ lib.GeoID c = geoID /\ lib.Name c = name /\
    lib.Population c = population /\ lib.Continent c = continent /\
    sql.tblCountries (tablesOf db') = sql.tblCountries (tablesOf db) ++ [rowOfCountry c] /\
    sql.tblCases (tablesOf db') = sql.tblCases (tablesOf db) /\
    (forall k, k ∈ sql.tblCountries (tablesOf db) -> sql.Id k < lib.ID c) /\
    lib.Database_Country code db' = (db', Ok (Some c)).

(** The rows a batch stands for: one per record that has a country. *)
Definition rowsOf (records : list lib.CovidStatisticsRecord) : list sql.CasesRow :=
  omap (fun record => (fun country => lib.caseRow country record) <$> lib.CountryPtr record)
       records.

Definition keyOf (r : sql.CasesRow) : Z * Z := (sql.Date r, sql.CountryId r).

Definition appendCases (rows : list sql.CasesRow) (t : sql.Tables) : sql.Tables :=
  {| sql.tblCountries := sql.tblCountries t;
     sql.seqCountries := sql.seqCountries t;
     sql.tblCases := sql.tblCases t ++ rows |}.

(** The batch as the loop of [ImportRecords] sees it: every record has a
    country and no row takes a key that is stored or that an earlier row
    of the batch took. *)
Definition insertable (records : list lib.CovidStatisticsRecord) (t : sql.Tables) : Prop :=
  length (rowsOf records) = length records /\
  NoDup (keyOf <$> rowsOf records) /\
  forall r, r ∈ rowsOf records -> keyOf r ∉ (keyOf <$> sql.tblCases t).

(** Every element before the last carries no error. *)
Definition errorsOnlyLast (out : list lib.CovidStatisticsRecordResult) : Prop :=
  forall i x, out !! i = Some x -> lib.Error x <> None -> S i = length out.

(** The country [CountryByID] resolves an id to: the cached one, or else
    the row of that Id. *)
Definition resolve (cache : gmap Z lib.Country) (t : sql.Tables) (id : Z)
  : option lib.Country :=
  match cache !! id with
  | Some country => Some country
  | None =>
    match sql.selectCountryByID id t with
    | k :: _ => Some (lib.countryOfRow k)
    | [] => None
    end
  end.

(** The element sent for a row that was read, decoded and resolved. *)
Definition answer (cache : gmap Z lib.Country) (t : sql.Tables) (r : sql.CasesRow)
  : lib.CovidStatisticsRecordResult :=
  {| lib.Result := {| lib.CountryPtr := resolve cache t (sql.CountryId r);
                      lib.Date := time.Unix (sql.Date r);
                      lib.Cases := sql.Cases r;
                      lib.Deaths := sql.Deaths r;
                      lib.Cumulative := sql.Cumulative r |};
     lib.Error := None |}.

(** The facts a records query selects, before they are put in order. *)
Definition selected (col : sql.column) (key : string) (since : Z) (t : sql.Tables)
  : list sql.CasesRow :=
  fst <$> filter (fun p => sql.columnIs col key (snd p) /\ since <= sql.Date (fst p))
            (sql.casesJoinCountries t).

(** The test a records query makes on a country row, by kind of lookup. *)
Definition lookupMatches (q : lib.CountryQuery) (k : sql.CountriesRow) : Prop :=
  match lib.QueryType q with
  | lib.CountryQueryByGeoID => sql.GeoId k = lib.Query q
  | lib.CountryQueryByID => sql.Code k = lib.Query q
  | lib.CountryQueryByName => sql.nocase (sql.Name k) = sql.nocase (lib.Query q)
  end.

Definition tablesIn (importer : ecdc.ecdcImporter) : sql.Tables :=
  tablesOf (ecdc.db importer).

(** A record the importer cannot read: a day, month or year that
    [ParseUint] refuses, or a cumulative incidence that is not empty and
    that [ParseFloat] refuses. *)
Definition malformed (record : ecdc.Record) : Prop :=
  isErr (strconv.ParseUint (ecdc.Day record)) = true \/
  isErr (strconv.ParseUint (ecdc.Month record)) = true \/
  isErr (strconv.ParseUint (ecdc.Year record)) = true \/
  (ecdc.CumulativeCases record <> "" /\
   isErr (ParseFloat (ecdc.CumulativeCases record)) = true).

(** The constraints the schema declares: Id is a key of Countries, and
    every fact refers to a row of Countries. *)
Definition consistent (t : sql.Tables) : Prop :=
  NoDup (sql.Id <$> sql.tblCountries t) /\
  forall c, c ∈ sql.tblCases t ->
            exists k, k ∈ sql.tblCountries t /\ sql.Id k = sql.CountryId c.

(** [PutCountry] for a record, on a store that answers. *)
Definition putQuiet (record : ecdc.Record) (db : lib.Database) : lib.Database * lib.Country :=
  let put :=
    (afterMint (ecdc.CountryCode record) (ecdc.GeoID record) (ecdc.CountryName record)
       (ecdc.Population record) (ecdc.Continent record) db,
     minted (ecdc.CountryCode record) (ecdc.GeoID record) (ecdc.CountryName record)
       (ecdc.Population record) (ecdc.Continent record) db) in
  match sql.selectCurrentRevision (ecdc.CountryCode record) (tablesOf db) with
  | k :: _ =>
    if differs k (ecdc.GeoID record) (ecdc.CountryName record)
         (ecdc.Population record) (ecdc.Continent record)
    then put
    else (db, lib.countryOfRow k)
  | [] => put
  end.

(** The country of a record: a row of Countries with the code and the
    attributes of the record. *)
Definition countryFor (record : ecdc.Record) (t : sql.Tables) (c : lib.Country) : Prop :=
  rowOfCountry c ∈ sql.tblCountries t /\
  lib.Code c = ecdc.CountryCode record /\
  lib.GeoID c = ecdc.GeoID record /\
  lib.Name c = ecdc.CountryName record /\
  lib.Population c = ecdc.Population record /\
  lib.Continent c = ecdc.Continent record.

(** A record the importer can read, and what it reads from it. *)
Definition wellFormed (record : ecdc.Record) : Prop :=
  isErr (ecdc.Timestamp record) = false /\ isErr (ecdc.cumulativeOf record) = false.

Definition timestampOf (record : ecdc.Record) : time.Time :=
  match ecdc.Timestamp record with
  | Ok timestamp => timestamp
  | Err _ => lib.epochStart
  end.

Definition cumulativeValueOf (record : ecdc.Record) : float64 :=
  match ecdc.cumulativeOf record with
  | Ok cumulative => cumulative
  | Err _ => float64_zero
  end.

(** The fact [Import] stages for a record, once its country is known. *)
Definition factOf (record : ecdc.Record) (country : lib.Country) : lib.CovidStatisticsRecord :=
  {| lib.CountryPtr := Some country;
     lib.Date := timestampOf record;
     lib.Cases := ecdc.Cases record;
     lib.Deaths := ecdc.Deaths record;
     lib.Cumulative := cumulativeValueOf record |}.

(** The loop of [Import] over records that are all newer, on a store
    that answers: the database it leaves and the facts it stages. *)
Fixpoint stageAll (rs : list ecdc.Record) (db : lib.Database)
  : lib.Database * list lib.CovidStatisticsRecord :=
  match rs with
  | [] => (db, [])
  | record :: rest =>
    let '(db1, country) := putQuiet record db in
    let '(db2, facts) := stageAll rest db1 in
    (db2, factOf record country :: facts)
  end.

(** The incremental filter: a record passes when its date is strictly after
    the last known date of its code. *)
Definition newer (watermark : string -> Z) (record : ecdc.Record) : Prop :=
  watermark (ecdc.CountryCode record) < timestampOf record.

Definition setTables (t : sql.Tables) (db : lib.Database) : lib.Database :=
  {| lib.database := {| sql.tables := t; sql.outcomes := sql.outcomes (lib.database db) |};
     lib.countryCache := lib.countryCache db |}.

(** What a stored row says of the record it comes from. *)
Definition rowFor (record : ecdc.Record) (t : sql.Tables) (row : sql.CasesRow) : Prop :=
  sql.Date row = timestampOf record /\
  sql.Cases row = ecdc.Cases record /\
  sql.Deaths row = ecdc.Deaths record /\
  sql.Cumulative row = cumulativeValueOf record /\
  exists k, k ∈ sql.tblCountries t /\ sql.Id k = sql.CountryId row /\
            sql.Code k = ecdc.CountryCode record /\
            sql.GeoId k = ecdc.GeoID record /\
            sql.Name k = ecdc.CountryName record /\
            sql.Population k = ecdc.Population record /\
            sql.Continent k = ecdc.Continent record.

(** Dates strictly increasing along the batch, code by code. *)
Definition increasingPerCode (rs : list ecdc.Record) : Prop :=
  forall i j ri rj,
    rs !! i = Some ri -> rs !! j = Some rj -> (i < j)%nat ->
    ecdc.CountryCode ri = ecdc.CountryCode rj ->
    timestampOf ri < timestampOf rj.

(** Every stored fact is dated after the epoch. *)
Definition afterEpoch (t : sql.Tables) : Prop :=
  forall c, c ∈ sql.tblCases t -> 0 < sql.Date c.

Definition cacheAfterEpoch (importer : ecdc.ecdcImporter) : Prop :=
  forall code timestamp,
    ecdc.lastRecordCache importer !! code = Some timestamp -> 0 <= timestamp.

End Vocabulary.

(** * Properties *)

(** ** Tactics *)

(** Case analysis on the outcomes the driver script holds for the calls
    made in [H]. *)
Ltac scripts H :=
  repeat match type of H with
         | context [match ?o with [] => _ | _ :: _ => _ end] =>
           is_var o; destruct o as [|[?|] ?]; cbn in H
         end.

Ltac unfold_calls H :=
  cbv beta iota zeta delta
    [bind catch ret throw lift gets ignore lib.zoom lib.rollbackAndReturn
     lib.scanCountry lib.cachePut
     sql.Begin sql.Commit sql.Rollback sql.Prepare sql.Query sql.Next sql.Scan
     sql.ExecInsertCase sql.ExecInsertCountry sql.LastInsertId sql.call sql.withTables
     lib.database lib.countryCache sql.tables sql.outcomes fst snd] in H.

(** Closes a goal [False] from what is known of the length of the query
    and of its upper-casing. *)
Ltac by_length :=
  repeat match goal with Ha : _ /\ _ |- _ => destruct Ha end;
  first
    [ lia
    | congruence
    | match goal with
      | Hn : ~ (_ /\ _) |- _ => apply Hn; split; [first [lia|tauto]|assumption]
      end ].

(** ** The calendar

    [daysOfDate] undoes [dateOfDays] on every day count: checked by
    computation on one cycle of 400 years, and carried to the others by
    periodicity. *)

Section Calendar.

Lemma allRange_spec k : forall lo p,
  allRange k lo p = true -> forall i, lo <= i < lo + 2 ^ Z.of_nat k -> p i = true.
Proof.
  induction k as [|k IH]; intros lo p Hall i Hi.
  - simpl in *. replace i with lo by lia. exact Hall.
  - cbn [allRange] in Hall. apply andb_true_iff in Hall as [H1 H2].
    rewrite Nat2Z.inj_succ, Z.pow_succ_r in Hi by lia.
    destruct (Z_lt_dec i (lo + 2 ^ Z.of_nat k)).
    + apply (IH _ _ H1). lia.
    + apply (IH _ _ H2). lia.
Qed.

Lemma cycle_checked : allRange 18 0 cycleOk = true.
Proof. vm_compute. reflexivity. Qed.

Lemma cycle_ok i :
  0 <= i < 146097 ->
  let '(y, m, d) := time.dateOfDays (i - 719162) in
  time.daysOfDate y m d = i - 719162.
Proof.
  intros Hi.
  pose proof (allRange_spec 18 0 cycleOk cycle_checked i) as Hc.
  unfold cycleOk in Hc.
  destruct (146097 <=? i) eqn:Hge; [apply Z.leb_le in Hge; lia|].
  destruct (time.dateOfDays (i - 719162)) as [[y m] d].
  apply Z.eqb_eq, Hc. change (2 ^ Z.of_nat 18) with 262144. lia.
Qed.

Lemma isLeap_period y n : time.isLeap (y + 400 * n) = time.isLeap y.
Proof.
  unfold time.isLeap.
  replace ((y + 400 * n) mod 4) with (y mod 4)
    by (Z.div_mod_to_equations; lia).
  replace ((y + 400 * n) mod 100) with (y mod 100)
    by (Z.div_mod_to_equations; lia).
  replace ((y + 400 * n) mod 400) with (y mod 400)
    by (Z.div_mod_to_equations; lia).
  reflexivity.
Qed.

Lemma daysSinceEpoch_period y n :
  time.daysSinceEpoch (y + 400 * n) = time.daysSinceEpoch y + 146097 * n.
Proof. unfold time.daysSinceEpoch. cbv zeta. Z.div_mod_to_equations. lia. Qed.

Lemma daysOfDate_period y m d n :
  time.daysOfDate (y + 400 * n) m d = time.daysOfDate y m d + 146097 * n.
Proof.
  unfold time.daysOfDate, time.norm. cbv zeta.
  replace (y + 400 * n + (m - 1) / 12) with (y + (m - 1) / 12 + 400 * n) by lia.
  rewrite isLeap_period, daysSinceEpoch_period. lia.
Qed.

Lemma yearAndDay_period D :
  let n := (D + 719162) / 146097 in
  let r := (D + 719162) mod 146097 in
  time.yearAndDay D =
  (fst (time.yearAndDay (r - 719162)) + 400 * n, snd (time.yearAndDay (r - 719162))).
Proof.
  intros n r. unfold time.yearAndDay. cbv zeta. cbn [fst snd].
  replace (r - 719162 + 719162) with r by lia.
  assert (Hr : 0 <= r < 146097) by (apply Z.mod_pos_bound; lia).
  replace (r / 146097) with 0 by (symmetry; apply Z.div_small; lia).
  replace (r - 146097 * 0) with r by lia.
  replace (D + 719162 - 146097 * ((D + 719162) / 146097)) with r
    by (unfold r; rewrite Z.mod_eq by lia; lia).
  fold n. f_equal. lia.
Qed.

Lemma daysOfDate_dateOfDays D :
  let '(y, m, d) := time.dateOfDays D in time.daysOfDate y m d = D.
Proof.
  pose proof (yearAndDay_period D) as HP. cbv zeta in HP.
  set (n := (D + 719162) / 146097) in *.
  set (r := (D + 719162) mod 146097) in *.
  assert (Hr : 0 <= r < 146097) by (apply Z.mod_pos_bound; lia).
  pose proof (cycle_ok r Hr) as Hc.
  unfold time.dateOfDays in *. rewrite HP.
  destruct (time.yearAndDay (r - 719162)) as [y0 yd]. cbn [fst snd].
  rewrite isLeap_period.
  destruct (time.monthAndDay (time.isLeap y0) yd) as [m d].
  rewrite daysOfDate_period, Hc.
  unfold r, n. rewrite Z.mod_eq by lia. lia.
Qed.

End Calendar.

(** ** Local midnight *)

Section NormalizeDate.
Context `{GoRuntime}.

(** [normalizeDate] goes back to the local midnight at or before [t]. *)
Lemma normalizeDate_floor (t : time.Time) :
  lib.normalizeDate t = (t + Local) / 86400 * 86400 - Local.
Proof.
  unfold lib.normalizeDate, time.Time_Date, time.Date, time.secondsPerDay.
  pose proof (daysOfDate_dateOfDays ((t + Local) / 86400)) as HD.
  destruct (time.dateOfDays ((t + Local) / 86400)) as [[y m] d].
  rewrite HD. reflexivity.
Qed.

(** A time built by [time.Date] at midnight is its own normal form. *)
Lemma normalizeDate_Date (year month day : Z) :
  lib.normalizeDate (time.Date year month day) = time.Date year month day.
Proof.
  rewrite normalizeDate_floor. unfold time.Date, time.secondsPerDay.
  replace (time.daysOfDate year month day * 86400 - Local + Local)
    with (time.daysOfDate year month day * 86400) by lia.
  rewrite Z.div_mul by lia. reflexivity.
Qed.

Lemma normalizeDate_le (t : time.Time) : lib.normalizeDate t <= t.
Proof.
  rewrite normalizeDate_floor.
  pose proof (Z.mul_div_le (t + Local) 86400 ltac:(lia)). lia.
Qed.

Lemma normalizeDate_idem (t : time.Time) :
  lib.normalizeDate (lib.normalizeDate t) = lib.normalizeDate t.
Proof.
  rewrite !normalizeDate_floor.
  replace ((t + Local) / 86400 * 86400 - Local + Local)
    with ((t + Local) / 86400 * 86400) by lia.
  rewrite Z.div_mul by lia. reflexivity.
Qed.

End NormalizeDate.

(** ** The first row of an ordered result *)

Section Sorting.
Context {A : Type} (R : relation A) `{!forall x y, Decision (R x y)}.
Context `{!Total R, !Transitive R}.

Lemma first_sorted_nil (l : list A) : take 1 (merge_sort R l) = [] -> l = [].
Proof.
  intros Ht. pose proof (merge_sort_Permutation R l) as HP.
  destruct (merge_sort R l) as [|x s]; [|discriminate].
  by apply Permutation_nil in HP.
Qed.

Lemma first_sorted_head (l : list A) (x : A) (rest : list A) :
  take 1 (merge_sort R l) = x :: rest -> x ∈ l /\ Forall (R x) l.
Proof.
  intros Ht. pose proof (merge_sort_Permutation R l) as HP.
  pose proof (StronglySorted_merge_sort R l) as HS.
  destruct (merge_sort R l) as [|y s]; [discriminate|].
  simpl in Ht. rewrite take_0 in Ht. injection Ht as -> _.
  split.
  - rewrite <- HP. left.
  - rewrite <- HP. apply StronglySorted_inv in HS as [_ HF].
    constructor; [|exact HF]. destruct (total R x x); assumption.
Qed.

End Sorting.

(** ** What the queries answer *)

#[global] Instance desc_total : Total sql.desc.
Proof. intros a b. unfold sql.desc. lia. Qed.
#[global] Instance desc_trans : Transitive sql.desc.
Proof. intros a b c. unfold sql.desc. lia. Qed.

Section Queries.
Context `{GoRuntime}.

#[global] Instance byIdDesc_total : Total sql.byIdDesc.
Proof. intros a b. unfold sql.byIdDesc. lia. Qed.
#[global] Instance byIdDesc_trans : Transitive sql.byIdDesc.
Proof. intros a b c. unfold sql.byIdDesc. lia. Qed.
#[global] Instance byDateAsc_total : Total sql.byDateAsc.
Proof. intros a b. unfold sql.byDateAsc. lia. Qed.
#[global] Instance byDateAsc_trans : Transitive sql.byDateAsc.
Proof. intros a b c. unfold sql.byDateAsc. lia. Qed.

Lemma elem_of_casesJoinCountries (c : sql.CasesRow) (k : sql.CountriesRow) (t : sql.Tables) :
  (c, k) ∈ sql.casesJoinCountries t <->
  c ∈ sql.tblCases t /\ k ∈ sql.tblCountries t /\ sql.Id k = sql.CountryId c.
Proof.
  unfold sql.casesJoinCountries. rewrite list_elem_of_bind. split.
  - intros (c' & Hin & Hc). apply list_elem_of_fmap in Hin as (k' & Heq & Hk).
    injection Heq as -> ->. apply list_elem_of_filter in Hk as [Hid Hk]. auto.
  - intros (Hc & Hk & Hid). exists c. split; [|exact Hc].
    apply list_elem_of_fmap. exists k. split; [reflexivity|].
    apply list_elem_of_filter. auto.
Qed.

Lemma elem_of_datesOf (d : Z) (code : string) (t : sql.Tables) :
  d ∈ datesOf code t <->
  exists c k, c ∈ sql.tblCases t /\ k ∈ sql.tblCountries t /\
              sql.Id k = sql.CountryId c /\ sql.Code k = code /\ sql.Date c = d.
Proof.
  unfold datesOf. rewrite list_elem_of_fmap. split.
  - intros ([c k] & -> & Hin). apply list_elem_of_filter in Hin as [Hcode Hin].
    apply elem_of_casesJoinCountries in Hin as (? & ? & ?). exists c, k. auto.
  - intros (c & k & Hc & Hk & Hid & Hcode & <-). exists (c, k). split; [reflexivity|].
    apply list_elem_of_filter. split; [exact Hcode|]. apply elem_of_casesJoinCountries. auto.
Qed.

Lemma lastDate_none (code : string) (t : sql.Tables) :
  datesOf code t = [] -> lastDate code t = 0.
Proof.
  intros Hd. unfold lastDate, sql.selectLastDate. fold (datesOf code t).
  rewrite Hd. reflexivity.
Qed.

Lemma lastDate_upper (code : string) (t : sql.Tables) (d : Z) :
  d ∈ datesOf code t -> d <= lastDate code t.
Proof.
  intros Hd. unfold lastDate, sql.selectLastDate. fold (datesOf code t).
  destruct (take 1 (merge_sort sql.desc (datesOf code t))) as [|w rest] eqn:Ht.
  - apply first_sorted_nil in Ht; [|apply _..]. rewrite Ht in Hd. inversion Hd.
  - apply first_sorted_head in Ht as [_ HF]; [|apply _..].
    rewrite Forall_forall in HF. apply HF in Hd. exact Hd.
Qed.

Lemma lastDate_in (code : string) (t : sql.Tables) :
  datesOf code t <> [] -> lastDate code t ∈ datesOf code t.
Proof.
  intros Hd. unfold lastDate, sql.selectLastDate. fold (datesOf code t).
  destruct (take 1 (merge_sort sql.desc (datesOf code t))) as [|w rest] eqn:Ht.
  - apply first_sorted_nil in Ht; [|apply _..]. contradiction.
  - apply first_sorted_head in Ht as [Hin _]; [|apply _..]. exact Hin.
Qed.

End Queries.

(** ** The database calls on a store that answers *)

Section Quiet.
Context `{GoRuntime}.

Lemma LastRecordDate_quiet (code : string) (db : lib.Database) :
  quiet db -> lib.LastRecordDate code db = (db, Ok (lastDate code (tablesOf db))).
Proof.
  destruct db as [[t o] cache]. unfold quiet, tablesOf. simpl. intros ->.
  unfold lib.LastRecordDate, lastDate. cbn.
  destruct (sql.selectLastDate code t); reflexivity.
Qed.

Lemma PutCountry_quiet (code geoID name : string) (population : Z) (continent : string)
    (db : lib.Database) :
  quiet db ->
  lib.PutCountry code geoID name population continent db =
  match sql.selectCurrentRevision code (tablesOf db) with
  | k :: _ =>
    if differs k geoID name population continent
    then (afterMint code geoID name population continent db,
          Ok (minted code geoID name population continent db))
    else (db, Ok (lib.countryOfRow k))
  | [] => (afterMint code geoID name population continent db,
           Ok (minted code geoID name population continent db))
  end.
Proof.
  destruct db as [[t o] cache]. unfold quiet, tablesOf. simpl. intros ->.
  unfold lib.PutCountry, afterMint, minted, differs, tablesOf. cbn.
  destruct (sql.selectCurrentRevision code t) as [|k rest]; cbn.
  - reflexivity.
  - destruct (_ || _); reflexivity.
Qed.

Lemma afterMint_quiet code geoID name population continent db :
  quiet db -> quiet (afterMint code geoID name population continent db).
Proof. unfold quiet. simpl. auto. Qed.

Lemma rowOfCountry_countryOfRow k : rowOfCountry (lib.countryOfRow k) = k.
Proof. destruct k; reflexivity. Qed.

Lemma Database_Country_quiet (code : string) (db : lib.Database) :
  quiet db -> lib.Database_Country code db = (db, Ok (currentVersion code (tablesOf db))).
Proof.
  destruct db as [[t o] cache]. unfold quiet, tablesOf. simpl. intros ->.
  unfold lib.Database_Country, currentVersion. cbn.
  destruct (sql.selectCurrentRevision code t); reflexivity.
Qed.

(** The current version of a code is a row of that code with the highest
    Id, and there is none exactly when no row has the code. *)
Lemma currentVersion_Some (code : string) (t : sql.Tables) (c : lib.Country) :
  currentVersion code t = Some c ->
  rowOfCountry c ∈ sql.tblCountries t /\ lib.Code c = code /\
  forall k, k ∈ sql.tblCountries t -> sql.Code k = code -> sql.Id k <= lib.ID c.
Proof.
  unfold currentVersion, sql.selectCurrentRevision.
  destruct (take 1 _) as [|k rest] eqn:Ht; [discriminate|].
  intros [= <-]. rewrite rowOfCountry_countryOfRow.
  apply first_sorted_head in Ht as [Hin HF]; [|apply _..].
  apply list_elem_of_filter in Hin as [Hcode Hin].
  split; [exact Hin|]. split; [exact Hcode|].
  intros k' Hk' Hc'. rewrite Forall_forall in HF.
  apply (HF k'). apply list_elem_of_filter. auto.
Qed.

Lemma currentVersion_None (code : string) (t : sql.Tables) :
  currentVersion code t = None <->
  forall k, k ∈ sql.tblCountries t -> sql.Code k <> code.
Proof.
  unfold currentVersion, sql.selectCurrentRevision. split.
  - destruct (take 1 _) as [|k rest] eqn:Ht; [|discriminate].
    intros _ k Hk Hc. apply first_sorted_nil in Ht; [|apply _..].
    assert (Hin : k ∈ filter (fun k => sql.Code k = code) (sql.tblCountries t))
      by (apply list_elem_of_filter; auto).
    rewrite Ht in Hin. inversion Hin.
  - intros Hno. destruct (take 1 _) as [|k rest] eqn:Ht; [reflexivity|].
    apply first_sorted_head in Ht as [Hin _]; [|apply _..].
    apply list_elem_of_filter in Hin as [Hcode Hin]. destruct (Hno k Hin Hcode).
Qed.

Lemma Id_lt_nextCountryId (t : sql.Tables) (k : sql.CountriesRow) :
  k ∈ sql.tblCountries t -> sql.Id k < sql.nextCountryId t.
Proof.
  unfold sql.nextCountryId. intros Hk.
  assert (sql.Id k <= foldr Z.max 0 (sql.Id <$> sql.tblCountries t)); [|lia].
  induction (sql.tblCountries t) as [|a l IH]; [inversion Hk|].
  cbn. apply elem_of_cons in Hk as [->|Hk]; [lia|]. specialize (IH Hk). lia.
Qed.

(** After a version is minted it is the current one of its code. *)
Lemma currentVersion_afterMint code geoID name population continent db :
  currentVersion code (tablesOf (afterMint code geoID name population continent db))
  = Some (minted code geoID name population continent db).
Proof.
  unfold currentVersion, sql.selectCurrentRevision.
  destruct (take 1 _) as [|k rest] eqn:Ht.
  - apply first_sorted_nil in Ht; [|apply _..]. cbn in Ht.
    rewrite filter_app in Ht. apply app_eq_nil in Ht as [_ Ht].
    rewrite filter_cons_True in Ht by reflexivity. discriminate.
  - apply first_sorted_head in Ht as [Hin HF]; [|apply _..]. cbn in Hin, HF.
    rewrite Forall_forall in HF.
    set (new := {| sql.Id := sql.nextCountryId (tablesOf db); sql.Code := code;
                   sql.GeoId := geoID; sql.Name := name;
                   sql.Population := population; sql.Continent := continent |}) in *.
    assert (Hnew : new ∈ filter (fun k => sql.Code k = code)
                     (sql.tblCountries (tablesOf db) ++ [new])).
    { apply list_elem_of_filter. split; [reflexivity|]. apply elem_of_app. right. left. }
    apply HF in Hnew. unfold sql.byIdDesc in Hnew. cbn in Hnew.
    apply list_elem_of_filter in Hin as [_ Hin]. apply elem_of_app in Hin as [Hold|Hin].
    + apply Id_lt_nextCountryId in Hold. lia.
    + apply list_elem_of_singleton in Hin. subst k. reflexivity.
Qed.

End Quiet.

(** ** Versions of a country *)

Section CountryVersions.
Context `{GoRuntime}.

Lemma quiet_mintsVersion code geoID name population continent db :
  quiet db ->
  lib.PutCountry code geoID name population continent db =
    (afterMint code geoID name population continent db,
     Ok (minted code geoID name population continent db)) ->
  mintsVersion code geoID name population continent db.
Proof.
  intros Hq HP. eexists _, _. split; [exact HP|].
  repeat split; try reflexivity.
  - intros k Hk. apply Id_lt_nextCountryId in Hk. exact Hk.
  - rewrite Database_Country_quiet by (apply afterMint_quiet; exact Hq).
    rewrite currentVersion_afterMint. reflexivity.
Qed.

Lemma differs_false k geoID name population continent :
  differs k geoID name population continent = false <->
  sql.GeoId k = geoID /\ sql.Name k = name /\
  sql.Population k = population /\ sql.Continent k = continent.
Proof.
  unfold differs. rewrite !orb_false_iff, !negb_false_iff, !String.eqb_eq, Z.eqb_eq.
  tauto.
Qed.

(** C4. Country dimension versioning: on a store that answers, [PutCountry]
    inserts and returns a new row when the code has no row; returns the
    current (highest-Id) row of the code, writing nothing, when geo id,
    name, population and continent all match it; and otherwise inserts and
    returns a new row of the same code with a strictly greater Id, which
    [Database.Country] then reports as the current version. *)
Theorem PutCountry_versions (code geoID name : string) (population : Z)
    (continent : string) (db : lib.Database) :
  quiet db ->
  exists current,
    lib.Database_Country code db = (db, Ok current) /\
    match current with
    | None =>
      (forall k, k ∈ sql.tblCountries (tablesOf db) -> sql.Code k <> code) /\
      mintsVersion code geoID name population continent db
    | Some cur =>
      rowOfCountry cur ∈ sql.tblCountries (tablesOf db) /\
      lib.Code cur = code /\
      (forall k, k ∈ sql.tblCountries (tablesOf db) -> sql.Code k = code ->
                 sql.Id k <= lib.ID cur) /\
      ((lib.GeoID cur = geoID /\ lib.Name cur = name /\
        lib.Population cur = population /\ lib.Continent cur = continent ->
        lib.PutCountry code geoID name population continent db = (db, Ok cur)) /\
       (~ (lib.GeoID cur = geoID /\ lib.Name cur = name /\
           lib.Population cur = population /\ lib.Continent cur = continent) ->
        mintsVersion code geoID name population continent db /\
        forall db' c,
          lib.PutCountry code geoID name population continent db = (db', Ok c) ->
          lib.ID cur < lib.ID c))
    end.
Proof.
  intros Hq. exists (currentVersion code (tablesOf db)).
  split; [apply Database_Country_quiet; exact Hq|].
  pose proof (PutCountry_quiet code geoID name population continent db Hq) as HP.
  destruct (currentVersion code (tablesOf db)) as [cur|] eqn:Hcur.
  - pose proof (currentVersion_Some _ _ _ Hcur) as (Hin & Hcode & Hmax).
    split; [exact Hin|]. split; [exact Hcode|]. split; [exact Hmax|].
    unfold currentVersion in Hcur.
    destruct (sql.selectCurrentRevision code (tablesOf db)) as [|k rest]; [discriminate|].
    injection Hcur as <-.
    destruct (differs k geoID name population continent) eqn:Hd.
    + split.
      * intros Hsame. apply differs_false in Hsame. congruence.
      * intros _. split; [apply quiet_mintsVersion; assumption|].
        intros db' c Hput. rewrite HP in Hput. injection Hput as _ <-.
        cbn. rewrite rowOfCountry_countryOfRow in Hin.
        apply Id_lt_nextCountryId in Hin. exact Hin.
    + split.
      * intros _. exact HP.
      * intros Hne. apply differs_false in Hd. destruct Hne. exact Hd.
  - split; [apply currentVersion_None; exact Hcur|].
    apply quiet_mintsVersion; [exact Hq|].
    unfold currentVersion in Hcur.
    destruct (sql.selectCurrentRevision code (tablesOf db)); [exact HP|discriminate].
Qed.

End CountryVersions.

(** ** The batch insert *)

Section BatchInsert.
Context `{GoRuntime}.

Lemma appendCases_nil t : appendCases [] t = t.
Proof. destruct t. unfold appendCases. cbn. by rewrite app_nil_r. Qed.

Lemma appendCases_app rows1 rows2 t :
  appendCases rows2 (appendCases rows1 t) = appendCases (rows1 ++ rows2) t.
Proof. unfold appendCases. cbn. by rewrite app_assoc. Qed.

Lemma Exists_sameKey r l : Exists (sql.sameKey r) l <-> keyOf r ∈ (keyOf <$> l).
Proof.
  rewrite Exists_exists, list_elem_of_fmap. unfold sql.sameKey, keyOf.
  split; intros (x & H1 & H2); exists x.
  - destruct H2 as [-> ->]. auto.
  - injection H1 as -> ->. auto.
Qed.

Lemma insertCase_Ok r t t' :
  sql.insertCase r t = Ok t' <->
  (keyOf r ∉ (keyOf <$> sql.tblCases t)) /\ t' = appendCases [r] t.
Proof.
  unfold sql.insertCase. destruct (decide _) as [He|He]; rewrite Exists_sameKey in He.
  - split; [discriminate|]. intros [? _]. contradiction.
  - split; [intros [= <-]; auto|]. intros [_ ->]. reflexivity.
Qed.

Lemma rowsOf_cons_Some record rest country :
  lib.CountryPtr record = Some country ->
  rowsOf (record :: rest) = lib.caseRow country record :: rowsOf rest.
Proof. intros Hc. unfold rowsOf. cbn. rewrite Hc. reflexivity. Qed.

Lemma insertRecords_spec (tx : sql.Tx) (records : list lib.CovidStatisticsRecord) :
  forall db db' r,
    lib.insertRecords tx records db = (db', r) ->
    lib.countryCache db' = lib.countryCache db /\
    match r with
    | Err _ => tablesOf db' = tx
    | Ok _ => tablesOf db' = appendCases (rowsOf records) (tablesOf db) /\
              insertable records (tablesOf db)
    end.
Proof.
  induction records as [|record rest IH]; intros db db' r Hrun.
  - cbn in Hrun. injection Hrun as <- <-. split; [reflexivity|].
    rewrite appendCases_nil. split; [reflexivity|].
    repeat split; cbn; [constructor|]. intros r Hr. inversion Hr.
  - destruct db as [[t o] cache]. cbn [lib.insertRecords] in Hrun.
    unfold insertable.
    destruct (lib.CountryPtr record) as [country|] eqn:Hc;
      [rewrite (rowsOf_cons_Some _ _ _ Hc)|];
      unfold_calls Hrun; scripts Hrun;
      try (injection Hrun as <- <-; cbn; auto; fail).
    all: destruct (sql.insertCase (lib.caseRow country record) t) as [t'|e] eqn:Hins;
      unfold_calls Hrun; scripts Hrun;
      try (injection Hrun as <- <-; cbn; auto; fail).
    all: apply insertCase_Ok in Hins as [Hfresh ->];
      apply IH in Hrun as [Hcache Hr]; (split; [exact Hcache|]);
      (destruct r as [[]|e]; [|exact Hr]);
      destruct Hr as [Ht (Hlen & Hnd & Hfr)]; unfold tablesOf in *; cbn in *;
      (split; [rewrite Ht, appendCases_app; reflexivity|]);
      repeat split.
    all: try lia.
    all: try (constructor; [|exact Hnd]; intros Hin;
              apply list_elem_of_fmap in Hin as (r' & Hk & Hr');
              apply (Hfr r' Hr'); rewrite fmap_app, elem_of_app; right; cbn;
              rewrite Hk; left).
    all: intros r0 Hr0; apply elem_of_cons in Hr0 as [->|Hr0]; [exact Hfresh|];
      intros Hin; apply (Hfr r0 Hr0); rewrite fmap_app, elem_of_app; auto.
Qed.

(** What [ImportRecords] leaves, whatever the storage does. *)
Lemma ImportRecords_outcome (records : list lib.CovidStatisticsRecord) (db : lib.Database) :
  match lib.ImportRecords records db with
  | (db', Err _) =>
    tablesOf db' = tablesOf db
  | (db', Ok _) =>
    tablesOf db' = appendCases (rowsOf records) (tablesOf db) /\
    length (rowsOf records) = length records /\
    NoDup (keyOf <$> rowsOf records) /\
    (forall r, r ∈ rowsOf records -> keyOf r ∉ (keyOf <$> sql.tblCases (tablesOf db)))
  end.
Proof.
  destruct (lib.ImportRecords records db) as [db' r] eqn:Hrun.
  destruct db as [[t o] cache]. unfold lib.ImportRecords in Hrun.
  unfold bind at 1 2 in Hrun. unfold_calls Hrun. scripts Hrun.
  all: try (injection Hrun as <- <-; reflexivity).
  all: match type of Hrun with
       | context [lib.insertRecords ?tx ?rs ?d] =>
         destruct (lib.insertRecords tx rs d) as [[[t1 o1] cache1] [[]|e1]] eqn:Hloop;
         apply insertRecords_spec in Hloop as [_ Hloop]; unfold tablesOf in Hloop;
         cbn in Hloop, Hrun
       end.
  all: scripts Hrun; injection Hrun as <- <-; unfold tablesOf; cbn; auto.
  all: try (destruct Hloop as [-> ?]; auto).
Qed.

(** C2. Import batch atomicity: whatever the storage does, [ImportRecords]
    either fails, and then the tables are as they were before the call (no
    fact of the batch is written), or succeeds, and then every record of the
    batch has its row in Cases; it fails whenever a row of the batch takes a
    (date, country id) pair that is stored already or that an earlier row of
    the batch has taken. *)
Theorem ImportRecords_atomic (records : list lib.CovidStatisticsRecord) (db : lib.Database) :
  match lib.ImportRecords records db with
  | (db', Err _) =>
    tablesOf db' = tablesOf db
  | (db', Ok _) =>
    tablesOf db' = appendCases (rowsOf records) (tablesOf db) /\
    length (rowsOf records) = length records /\
    NoDup (keyOf <$> rowsOf records) /\
    (forall r, r ∈ rowsOf records -> keyOf r ∉ (keyOf <$> sql.tblCases (tablesOf db)))
  end.
Proof. exact (ImportRecords_outcome records db). Qed.

End BatchInsert.

(** ** The stream of a records query *)

Section Stream.
Context `{GoRuntime}.

Lemma errorsOnlyLast_nil : errorsOnlyLast [].
Proof. intros i x Hi. inversion Hi. Qed.

Lemma errorsOnlyLast_singleton x : errorsOnlyLast [x].
Proof. intros [|i] y Hi _; [reflexivity|]. inversion Hi. Qed.

Lemma errorsOnlyLast_cons x out :
  lib.Error x = None -> errorsOnlyLast out -> errorsOnlyLast (x :: out).
Proof.
  intros Hx Hout [|i] y Hi Hy; cbn in Hi.
  - injection Hi as ->. contradiction.
  - cbn. f_equal. apply (Hout i y); assumption.
Qed.

Lemma CountryByID_tables (id : Z) (db db' : lib.Database) r :
  lib.CountryByID id db = (db', r) -> tablesOf db' = tablesOf db.
Proof.
  destruct db as [[t o] cache]. unfold lib.CountryByID. cbn.
  destruct (cache !! id) as [c|]; [intros [= <- <-]; reflexivity|].
  intros Hrun. unfold_calls Hrun. scripts Hrun.
  all: try (injection Hrun as <- <-; reflexivity).
  all: destruct (sql.selectCountryByID id t) as [|k rest];
    unfold_calls Hrun; scripts Hrun; injection Hrun as <- <-; reflexivity.
Qed.

(** The goroutine always closes the channel, leaves the tables alone, and
    sends an error, if at all, as the last element. *)
Lemma produce_spec (res : list sql.CasesRow) :
  forall db, exists db' out,
    lib.produce res db = (db', Ok out) /\
    tablesOf db' = tablesOf db /\
    errorsOnlyLast out /\
    (length out <= length res)%nat.
Proof.
  induction res as [|r res IH]; intros db.
  - destruct db as [[t o] cache]. cbn [lib.produce].
    destruct o as [|[e|] o]; eexists _, _;
      (split; [cbv; reflexivity|]); (split; [reflexivity|]);
      (split; [apply errorsOnlyLast_nil|cbn; lia]).
  - destruct db as [[t o] cache]. cbn [lib.produce].
    assert (Hstep : forall o1, exists db' out,
      (let db0 := {| lib.database := {| sql.tables := t; sql.outcomes := o1 |};
                     lib.countryCache := cache |} in
       match lib.zoom sql.Scan db0 with
       | (db1, Err e) => (db1, Ok [lib.errorResult e])
       | (db1, Ok _) =>
         match lib.CountryByID (sql.CountryId r) db1 with
         | (db2, Err e) => (db2, Ok [lib.errorResult e])
         | (db2, Ok country) =>
           match lib.produce res db2 with
           | (db3, Ok rest) =>
             (db3, Ok ({| lib.Result := {| lib.CountryPtr := country;
                                           lib.Date := time.Unix (sql.Date r);
                                           lib.Cases := sql.Cases r;
                                           lib.Deaths := sql.Deaths r;
                                           lib.Cumulative := sql.Cumulative r |};
                          lib.Error := None |} :: rest))
           | (db3, Err e) => (db3, Err e)
           end
         end
       end) = (db', Ok out) /\
      tablesOf db' = t /\ errorsOnlyLast out /\ (length out <= S (length res))%nat).
    { intros o1. cbv zeta.
      destruct (lib.zoom sql.Scan _) as [db1 [[]|e]] eqn:Hscan.
      - assert (Ht1 : tablesOf db1 = t).
        { unfold_calls Hscan. scripts Hscan; injection Hscan as <-; reflexivity. }
        destruct (lib.CountryByID (sql.CountryId r) db1) as [db2 [country|e]] eqn:Hc.
        + apply CountryByID_tables in Hc.
          destruct (IH db2) as (db3 & rest & -> & Ht3 & Hlast & Hlen).
          eexists _, _. split; [reflexivity|]. split; [congruence|].
          split; [apply errorsOnlyLast_cons; [reflexivity|exact Hlast]|cbn; lia].
        + apply CountryByID_tables in Hc.
          eexists _, _. split; [reflexivity|]. split; [congruence|].
          split; [apply errorsOnlyLast_singleton|cbn; lia].
      - eexists _, _. split; [reflexivity|].
        split; [unfold_calls Hscan; scripts Hscan; injection Hscan as <-; reflexivity|].
        split; [apply errorsOnlyLast_singleton|cbn; lia]. }
    destruct o as [|[e|] o].
    + destruct (Hstep []) as (db' & out & Hrun & ?). exists db', out.
      split; [|assumption]. rewrite <- Hrun. reflexivity.
    + eexists _, _. split; [cbv; reflexivity|]. split; [reflexivity|].
      split; [apply errorsOnlyLast_nil|cbn; lia].
    + destruct (Hstep o) as (db' & out & Hrun & ?). exists db', out.
      split; [|assumption]. rewrite <- Hrun. reflexivity.
Qed.

(** A records query that starts sends an error, if at all, as its last
    element: nothing follows an error. *)
Lemma RetrieveRecordsSince_errors_last (query : lib.CountryQuery) (since : time.Time)
    (db db' : lib.Database) (out : list lib.CovidStatisticsRecordResult) :
  lib.RetrieveRecordsSince query since db = (db', Ok out) -> errorsOnlyLast out.
Proof.
  unfold lib.RetrieveRecordsSince. unfold bind at 1. intros Hrun.
  destruct (lib.zoom _ db) as [db1 [res|e]]; [|discriminate].
  destruct (produce_spec res db1) as (db2 & out' & Hp & _ & Hlast & _).
  rewrite Hp in Hrun. injection Hrun as _ <-. exact Hlast.
Qed.

(** A row that cannot be decoded is reported: the stream ends with the
    error of [Scan]. *)
Lemma produce_scan_error (r : sql.CasesRow) (res : list sql.CasesRow) (e : error)
    (t : sql.Tables) (o : list (option error)) (cache : gmap Z lib.Country) :
  snd (lib.produce (r :: res)
         {| lib.database := {| sql.tables := t; sql.outcomes := None :: Some e :: o |};
            lib.countryCache := cache |})
  = Ok [lib.errorResult e].
Proof. reflexivity. Qed.

(** A step of the cursor that fails is not: the stream ends there, as if
    the rows had run out. *)
Lemma produce_next_error (res : list sql.CasesRow) (e : error)
    (t : sql.Tables) (o : list (option error)) (cache : gmap Z lib.Country) :
  snd (lib.produce res
         {| lib.database := {| sql.tables := t; sql.outcomes := Some e :: o |};
            lib.countryCache := cache |})
  = Ok [].
Proof. destruct res; reflexivity. Qed.

End Stream.

(** ** The answers of a records query *)

Section QueryAnswers.
Context `{GoRuntime}.

Lemma CountryByID_quiet (id : Z) (db : lib.Database) :
  quiet db ->
  exists db',
    lib.CountryByID id db = (db', Ok (resolve (lib.countryCache db) (tablesOf db) id)) /\
    quiet db' /\ tablesOf db' = tablesOf db /\
    forall id', resolve (lib.countryCache db') (tablesOf db) id'
                = resolve (lib.countryCache db) (tablesOf db) id'.
Proof.
  destruct db as [[t o] cache]. unfold quiet, tablesOf. cbn. intros ->.
  unfold lib.CountryByID, resolve. cbn.
  destruct (cache !! id) as [c|] eqn:Hc.
  - eexists. split; [reflexivity|]. auto.
  - destruct (sql.selectCountryByID id t) as [|k rest] eqn:Hsel; cbn.
    + eexists. split; [reflexivity|]. auto.
    + eexists. split; [reflexivity|]. cbn. repeat split.
      intros id'. destruct (decide (id = id')) as [<-|Hne].
      * rewrite lookup_insert_eq, Hc, Hsel. reflexivity.
      * rewrite lookup_insert_ne by exact Hne. reflexivity.
Qed.

Lemma produce_quiet (res : list sql.CasesRow) (cache0 : gmap Z lib.Country) :
  forall db,
    quiet db ->
    (forall id, resolve (lib.countryCache db) (tablesOf db) id
                = resolve cache0 (tablesOf db) id) ->
    exists db',
      lib.produce res db = (db', Ok (answer cache0 (tablesOf db) <$> res)) /\
      quiet db' /\ tablesOf db' = tablesOf db.
Proof.
  induction res as [|r res IH]; intros db Hq Hres.
  - destruct db as [[t o] cache]. unfold quiet in Hq. cbn in Hq. subst o.
    eexists. split; [reflexivity|]. split; reflexivity.
  - destruct (CountryByID_quiet (sql.CountryId r) db Hq) as (db1 & Hc & Hq1 & Ht1 & Hres1).
    destruct (IH db1 Hq1) as (db2 & Hp & Hq2 & Ht2).
    { intros id. rewrite Ht1, Hres1. apply Hres. }
    exists db2. split; [|split; [exact Hq2|congruence]].
    destruct db as [[t o] cache]. unfold quiet in Hq. cbn in Hq. subst o.
    cbn [lib.produce]. unfold bind at 1. unfold lib.zoom at 1. cbn.
    rewrite Hc, Hp. cbn. rewrite Ht1. unfold answer at 2. rewrite <- Hres.
    reflexivity.
Qed.

Lemma elem_of_selected col key since t f :
  f ∈ selected col key since t <->
  f ∈ sql.tblCases t /\ since <= sql.Date f /\
  exists k, k ∈ sql.tblCountries t /\ sql.Id k = sql.CountryId f /\ sql.columnIs col key k.
Proof.
  unfold selected. rewrite list_elem_of_fmap. split.
  - intros ([f' k] & -> & Hin). apply list_elem_of_filter in Hin as [[Hcol Hs] Hin].
    apply elem_of_casesJoinCountries in Hin as (? & ? & ?). cbn in *. eauto 10.
  - intros (Hf & Hs & k & Hk & Hid & Hcol). exists (f, k). split; [reflexivity|].
    apply list_elem_of_filter. split; [auto|]. apply elem_of_casesJoinCountries. auto.
Qed.

Lemma selectCasesSince_sorted col key since t :
  StronglySorted sql.byDateAsc (sql.selectCasesSince col key since t).
Proof. apply StronglySorted_merge_sort; apply _. Qed.

Lemma selectCasesSince_selected col key since t :
  sql.selectCasesSince col key since t ≡ₚ selected col key since t.
Proof. apply merge_sort_Permutation. Qed.

(** The order of the rows in Cases does not matter to the selection. *)
Lemma selected_Permutation col key since t1 t2 :
  sql.tblCountries t1 = sql.tblCountries t2 ->
  sql.tblCases t1 ≡ₚ sql.tblCases t2 ->
  selected col key since t1 ≡ₚ selected col key since t2.
Proof.
  intros Hk Hc. unfold selected, sql.casesJoinCountries. rewrite Hk, Hc. reflexivity.
Qed.

Lemma RetrieveRecordsSince_quiet (query : lib.CountryQuery) (since : time.Time)
    (db : lib.Database) :
  quiet db ->
  exists db',
    lib.RetrieveRecordsSince query since db =
      (db', Ok (answer (lib.countryCache db) (tablesOf db)
                  <$> sql.selectCasesSince (lib.countryQuery (lib.QueryType query))
                        (lib.Query query) (lib.normalizeDate since) (tablesOf db))) /\
    quiet db' /\ tablesOf db' = tablesOf db.
Proof.
  intros Hq.
  destruct (produce_quiet
              (sql.selectCasesSince (lib.countryQuery (lib.QueryType query))
                 (lib.Query query) (lib.normalizeDate since) (tablesOf db))
              (lib.countryCache db) db Hq) as (db' & Hp & Hq' & Ht); [reflexivity|].
  exists db'. split; [|auto].
  destruct db as [[t o] cache]. unfold quiet in Hq. cbn in Hq. subst o.
  unfold lib.RetrieveRecordsSince. cbn. exact Hp.
Qed.

(** Three facts in ascending order of date are the only ordered
    arrangement of themselves. *)
Lemma sorted_three (l : list sql.CasesRow) (f1 f2 f3 : sql.CasesRow) :
  StronglySorted sql.byDateAsc l ->
  l ≡ₚ [f1; f2; f3] ->
  sql.Date f1 < sql.Date f2 < sql.Date f3 ->
  l = [f1; f2; f3].
Proof.
  intros Hs Hp Hd.
  apply (StronglySorted_unique_strong sql.byDateAsc); [|exact Hs| |exact Hp].
  - intros x1 x2 Hx1 Hx2 H12 H21. rewrite Hp in Hx1. unfold sql.byDateAsc in *.
    set_unfold. destruct Hx1 as [->|[->|[->|[]]]], Hx2 as [->|[->|[->|[]]]];
      try reflexivity; lia.
  - repeat constructor; unfold sql.byDateAsc; lia.
Qed.

(** C7. Query ordering: on a store that answers, a records query sends one
    element per selected fact, none of them an error, in ascending order of
    date; when the facts selected are three facts of dates D1 < D2 < D3, in
    whatever order the Cases table holds them, the elements are those of D1,
    D2 and D3 in that order, and they are the same for every other order of
    the table. *)
Theorem RetrieveRecordsSince_ascending (query : lib.CountryQuery) (since : time.Time)
    (db : lib.Database) :
  quiet db ->
  let col := lib.countryQuery (lib.QueryType query) in
  let facts t := selected col (lib.Query query) (lib.normalizeDate since) t in
  exists db' out,
    lib.RetrieveRecordsSince query since db = (db', Ok out) /\
    Forall (fun x => lib.Error x = None) out /\
    (exists rows, rows ≡ₚ facts (tablesOf db) /\
                  out = answer (lib.countryCache db) (tablesOf db) <$> rows) /\
    StronglySorted Z.le ((fun x => lib.Date (lib.Result x)) <$> out) /\
    forall f1 f2 f3,
      facts (tablesOf db) ≡ₚ [f1; f2; f3] ->
      sql.Date f1 < sql.Date f2 < sql.Date f3 ->
      out = answer (lib.countryCache db) (tablesOf db) <$> [f1; f2; f3] /\
      forall other,
        quiet other ->
        lib.countryCache other = lib.countryCache db ->
        sql.tblCountries (tablesOf other) = sql.tblCountries (tablesOf db) ->
        sql.tblCases (tablesOf other) ≡ₚ sql.tblCases (tablesOf db) ->
        snd (lib.RetrieveRecordsSince query since other) = Ok out.
Proof.
  intros Hq col facts.
  destruct (RetrieveRecordsSince_quiet query since db Hq) as (db' & Hrun & _ & _).
  fold col in Hrun. eexists _, _. split; [exact Hrun|].
  set (rows := sql.selectCasesSince col (lib.Query query) (lib.normalizeDate since)
                 (tablesOf db)) in *.
  assert (Hs : StronglySorted sql.byDateAsc rows) by apply selectCasesSince_sorted.
  assert (Hp : rows ≡ₚ facts (tablesOf db)) by apply selectCasesSince_selected.
  split; [|split; [|split]].
  - apply Forall_fmap, Forall_forall. reflexivity.
  - exists rows. auto.
  - rewrite <- list_fmap_compose.
    clear Hrun Hp. induction Hs as [|r rows' Hs IH HF]; [constructor|].
    cbn. constructor; [exact IH|]. apply Forall_fmap.
    eapply Forall_impl; [exact HF|]. intros x Hx. exact Hx.
  - intros f1 f2 f3 Hfacts Hd.
    assert (Hrows : rows = [f1; f2; f3]).
    { apply sorted_three; [exact Hs|rewrite Hp; exact Hfacts|exact Hd]. }
    split; [rewrite Hrows; reflexivity|].
    intros other Hqo Hcache Hcountries Hcases.
    destruct (RetrieveRecordsSince_quiet query since other Hqo) as (db2 & Hrun2 & _ & _).
    rewrite Hrun2. cbn. f_equal. fold col.
    assert (Hrows2 : sql.selectCasesSince col (lib.Query query) (lib.normalizeDate since)
                       (tablesOf other) = [f1; f2; f3]).
    { apply sorted_three; [apply selectCasesSince_sorted| |exact Hd].
      rewrite selectCasesSince_selected, <- Hfacts.
      apply selected_Permutation; assumption. }
    rewrite Hrows2, Hrows, Hcache. cbn.
    assert (Hres : forall id, resolve (lib.countryCache db) (tablesOf other) id
                              = resolve (lib.countryCache db) (tablesOf db) id).
    { intros id. unfold resolve, sql.selectCountryByID. rewrite Hcountries. reflexivity. }
    unfold answer. rewrite !Hres. reflexivity.
Qed.

End QueryAnswers.

(** ** The kind of a lookup *)

Section LookupKind.
Context `{GoRuntime}.

Lemma upperByte_lower (c : ascii) : strings.isLowerByte c = true -> strings.upperByte c <> c.
Proof. destruct c as [[] [] [] [] [] [] [] []]; cbv; congruence. Qed.

Lemma upperByte_other (c : ascii) : strings.isLowerByte c = false -> strings.upperByte c = c.
Proof. unfold strings.upperByte. intros ->. reflexivity. Qed.

Lemma mapBytes_upperByte_fixed (s : string) :
  strings.mapBytes strings.upperByte s = s <-> strings.any strings.isLowerByte s = false.
Proof.
  induction s as [|c s IH]; cbn; [tauto|].
  rewrite orb_false_iff, <- IH. split.
  - intros [= Hc Hs]. split; [|exact Hs].
    destruct (strings.isLowerByte c) eqn:Hl; [|reflexivity].
    destruct (upperByte_lower c Hl Hc).
  - intros [Hc ->]. rewrite (upperByte_other c Hc). reflexivity.
Qed.

(** On a string of ASCII bytes, being one's own upper-casing is having no
    byte in 'a'..'z'. *)
Lemma ToUpper_fixed_ascii (s : string) :
  strings.all strings.isASCIIByte s = true ->
  (strings.ToUpper s = s <-> strings.any strings.isLowerByte s = false).
Proof.
  intros Ha. unfold strings.ToUpper. rewrite Ha.
  destruct (strings.any strings.isLowerByte s) eqn:Hl; cbn.
  - rewrite mapBytes_upperByte_fixed, Hl. tauto.
  - tauto.
Qed.

Lemma NewQuery_cases (query : string) :
  lib.NewQuery query =
  {| lib.Query := query;
     lib.QueryType :=
       if decide (String.length query = 2%nat /\ strings.ToUpper query = query)
       then lib.CountryQueryByGeoID
       else if decide (String.length query = 3%nat /\ strings.ToUpper query = query)
            then lib.CountryQueryByID
            else lib.CountryQueryByName |}.
Proof.
  unfold lib.NewQuery.
  destruct (String.eqb (strings.ToUpper query) query) eqn:Hu.
  - apply String.eqb_eq in Hu.
    destruct (Z.of_nat (String.length query) =? 2) eqn:H2;
      [apply Z.eqb_eq in H2|apply Z.eqb_neq in H2];
      (destruct (Z.of_nat (String.length query) =? 3) eqn:H3;
       [apply Z.eqb_eq in H3|apply Z.eqb_neq in H3]);
      cbn; repeat case_decide; try reflexivity; exfalso; by_length.
  - apply String.eqb_neq in Hu. rewrite !andb_false_r.
    repeat case_decide; try reflexivity; exfalso; by_length.
Qed.

Lemma columnIs_lookupMatches (q : lib.CountryQuery) (k : sql.CountriesRow) :
  sql.columnIs (lib.countryQuery (lib.QueryType q)) (lib.Query q) k <-> lookupMatches q k.
Proof. unfold lookupMatches. destruct (lib.QueryType q); reflexivity. Qed.

(** C5. Lookup-kind inference: [NewQuery] keeps the string and makes it a
    geo-identifier lookup when it has length 2 and is its own upper-casing,
    a country-code lookup when it has length 3 and is its own upper-casing,
    and a display-name lookup otherwise; a records query built from it, on a
    store that answers, sends exactly the facts from the lower bound on
    whose country row has that GeoId, has that Code, or has a Name equal to
    the string once the ASCII letters of both are folded to lower case. *)
Theorem NewQuery_lookup_kind (query : string) (since : time.Time) (db : lib.Database) :
  quiet db ->
  let q := lib.NewQuery query in
  lib.Query q = query /\
  (String.length query = 2%nat -> strings.ToUpper query = query ->
   lib.QueryType q = lib.CountryQueryByGeoID) /\
  (String.length query = 3%nat -> strings.ToUpper query = query ->
   lib.QueryType q = lib.CountryQueryByID) /\
  (~ ((String.length query = 2%nat \/ String.length query = 3%nat) /\
      strings.ToUpper query = query) ->
   lib.QueryType q = lib.CountryQueryByName) /\
  exists db' rows,
    lib.RetrieveRecordsSince q since db =
      (db', Ok (answer (lib.countryCache db) (tablesOf db) <$> rows)) /\
    forall f, f ∈ rows <->
      f ∈ sql.tblCases (tablesOf db) /\ lib.normalizeDate since <= sql.Date f /\
      exists k, k ∈ sql.tblCountries (tablesOf db) /\ sql.Id k = sql.CountryId f /\
        match lib.QueryType q with
        | lib.CountryQueryByGeoID => sql.GeoId k = query
        | lib.CountryQueryByID => sql.Code k = query
        | lib.CountryQueryByName => sql.nocase (sql.Name k) = sql.nocase query
        end.
Proof.
  intros Hq q.
  assert (HQ : lib.Query q = query) by (unfold q; rewrite NewQuery_cases; reflexivity).
  assert (HT : lib.QueryType q =
               if decide (String.length query = 2%nat /\ strings.ToUpper query = query)
               then lib.CountryQueryByGeoID
               else if decide (String.length query = 3%nat /\ strings.ToUpper query = query)
                    then lib.CountryQueryByID
                    else lib.CountryQueryByName)
    by (unfold q; rewrite NewQuery_cases; reflexivity).
  split; [exact HQ|]. split; [|split; [|split]].
  - intros H2 Hu. rewrite HT. repeat case_decide; try reflexivity; exfalso; by_length.
  - intros H3 Hu. rewrite HT. repeat case_decide; try reflexivity; exfalso; by_length.
  - intros Hn. rewrite HT. repeat case_decide; try reflexivity; exfalso; by_length.
  - clear HT.
    destruct (RetrieveRecordsSince_quiet q since db Hq) as (db' & Hrun & _ & _).
    eexists _, _. split; [exact Hrun|].
    intros f. rewrite selectCasesSince_selected, elem_of_selected.
    split.
    + intros (Hf & Hs & k & Hk & Hid & Hcol). split; [exact Hf|]. split; [exact Hs|].
      exists k. split; [exact Hk|]. split; [exact Hid|].
      apply columnIs_lookupMatches in Hcol. unfold lookupMatches in Hcol.
      rewrite HQ in Hcol. exact Hcol.
    + intros (Hf & Hs & k & Hk & Hid & Hcol). split; [exact Hf|]. split; [exact Hs|].
      exists k. split; [exact Hk|]. split; [exact Hid|].
      apply columnIs_lookupMatches. unfold lookupMatches. rewrite HQ. exact Hcol.
Qed.

(** The examples of the specification, on any platform. *)
Lemma NewQuery_examples :
  lib.NewQuery "US" = {| lib.Query := "US"; lib.QueryType := lib.CountryQueryByGeoID |} /\
  lib.NewQuery "USA" = {| lib.Query := "USA"; lib.QueryType := lib.CountryQueryByID |} /\
  lib.NewQuery "United States"
    = {| lib.Query := "United States"; lib.QueryType := lib.CountryQueryByName |} /\
  sql.nocase "United States" = sql.nocase "UNITED states".
Proof. repeat split. Qed.

(** C10. Complete lookup routing: [NewQuery] classifies every string. A
    string of ASCII bytes is its own upper-casing exactly when it has no byte
    in 'a'..'z'; so such a string of length 2 (digits and punctuation
    included, as "12") is a geo-identifier lookup and one of length 3 a
    country-code lookup, while the empty string and every string of another
    length, even all upper case as "SPAIN", is a display-name lookup. *)
Theorem NewQuery_routes_every_string (query : string) :
  (strings.all strings.isASCIIByte query = true ->
   (strings.ToUpper query = query <-> strings.any strings.isLowerByte query = false)) /\
  (String.length query = 2%nat ->
   strings.all strings.isASCIIByte query = true ->
   strings.any strings.isLowerByte query = false ->
   lib.NewQuery query = {| lib.Query := query; lib.QueryType := lib.CountryQueryByGeoID |}) /\
  (String.length query = 3%nat ->
   strings.all strings.isASCIIByte query = true ->
   strings.any strings.isLowerByte query = false ->
   lib.NewQuery query = {| lib.Query := query; lib.QueryType := lib.CountryQueryByID |}) /\
  (String.length query <> 2%nat -> String.length query <> 3%nat ->
   lib.NewQuery query = {| lib.Query := query; lib.QueryType := lib.CountryQueryByName |}) /\
  lib.NewQuery "12" = {| lib.Query := "12"; lib.QueryType := lib.CountryQueryByGeoID |} /\
  lib.NewQuery "A-1" = {| lib.Query := "A-1"; lib.QueryType := lib.CountryQueryByID |} /\
  lib.NewQuery "SPAIN" = {| lib.Query := "SPAIN"; lib.QueryType := lib.CountryQueryByName |} /\
  lib.NewQuery "" = {| lib.Query := ""; lib.QueryType := lib.CountryQueryByName |}.
Proof.
  split; [apply ToUpper_fixed_ascii|].
  split; [|split; [|split; [|repeat split]]].
  - intros H2 Ha Hl. apply ToUpper_fixed_ascii in Hl; [|exact Ha].
    rewrite NewQuery_cases. f_equal. repeat case_decide; try reflexivity; exfalso; by_length.
  - intros H3 Ha Hl. apply ToUpper_fixed_ascii in Hl; [|exact Ha].
    rewrite NewQuery_cases. f_equal.
    repeat case_decide; try reflexivity; exfalso; by_length.
  - intros H2 H3. rewrite NewQuery_cases. f_equal.
    repeat case_decide; try reflexivity; exfalso; by_length.
Qed.

End LookupKind.

(** ** What the database calls leave alone *)

Section Frames.
Context `{GoRuntime}.

Lemma selectCurrentRevision_head code t k rest :
  sql.selectCurrentRevision code t = k :: rest ->
  k ∈ sql.tblCountries t /\ sql.Code k = code.
Proof.
  unfold sql.selectCurrentRevision. intros Ht.
  apply first_sorted_head in Ht as [Hin _]; [|apply _..].
  apply list_elem_of_filter in Hin as [? ?]. auto.
Qed.

(** Whatever the storage does, [PutCountry] leaves Cases alone, only ever
    appends to Countries, and a country it returns is a row of the table
    under the code asked for. *)
Lemma PutCountry_frame code geoID name population continent db db' r :
  lib.PutCountry code geoID name population continent db = (db', r) ->
  sql.tblCases (tablesOf db') = sql.tblCases (tablesOf db) /\
  (exists extra, sql.tblCountries (tablesOf db') = sql.tblCountries (tablesOf db) ++ extra) /\
  match r with
  | Ok c => lib.Code c = code /\ rowOfCountry c ∈ sql.tblCountries (tablesOf db')
  | Err _ => True
  end.
Proof.
  destruct db as [[t o] cache]. unfold lib.PutCountry, lib.newCountryRecord. intros Hrun.
  unfold_calls Hrun. scripts Hrun.
  all: try (injection Hrun as <- <-; unfold tablesOf; cbn;
            split; [reflexivity|]; split; [exists []; by rewrite app_nil_r|exact I]).
  all: destruct (sql.selectCurrentRevision code t) as [|k rest] eqn:Hsel;
    unfold_calls Hrun; scripts Hrun.
  all: try (injection Hrun as <- <-; unfold tablesOf; cbn;
            split; [reflexivity|]; split; [exists []; by rewrite app_nil_r|exact I]).
  all: try (injection Hrun as <- <-; unfold tablesOf; cbn;
            split; [reflexivity|]; split; [eexists; reflexivity|];
            split; [reflexivity|]; apply elem_of_app; right; left).
  all: match type of Hrun with
       | context [if ?b then _ else _] => destruct b; unfold_calls Hrun; scripts Hrun
       end.
  all: try (injection Hrun as <- <-; unfold tablesOf; cbn;
            split; [reflexivity|]; split; [exists []; by rewrite app_nil_r|exact I]).
  all: try (injection Hrun as <- <-; unfold tablesOf; cbn;
            split; [reflexivity|]; split; [eexists; reflexivity|];
            split; [reflexivity|]; apply elem_of_app; right; left).
  all: injection Hrun as <- <-; unfold tablesOf; cbn;
    apply selectCurrentRevision_head in Hsel as [Hk Hcode];
    (split; [reflexivity|]); (split; [exists []; by rewrite app_nil_r|]);
    (split; [exact Hcode|]); rewrite rowOfCountry_countryOfRow; exact Hk.
Qed.

Lemma LastRecordDate_frame code db db' r :
  lib.LastRecordDate code db = (db', r) -> tablesOf db' = tablesOf db.
Proof.
  destruct db as [[t o] cache]. unfold lib.LastRecordDate. intros Hrun.
  unfold_calls Hrun. scripts Hrun.
  all: try (injection Hrun as <- <-; reflexivity).
  all: destruct (sql.selectLastDate code t) as [|k rest];
    unfold_calls Hrun; scripts Hrun; injection Hrun as <- <-; reflexivity.
Qed.

End Frames.

(** ** What an import leaves alone *)

Section ImporterFrames.
Context `{GoRuntime}.

Lemma onDb_inv {A} (m : M lib.Database A) importer importer' (r : result A) :
  ecdc.onDb m importer = (importer', r) ->
  m (ecdc.db importer) = (ecdc.db importer', r) /\
  ecdc.records importer' = ecdc.records importer /\
  ecdc.lastRecordCache importer' = ecdc.lastRecordCache importer.
Proof.
  unfold ecdc.onDb. destruct (m (ecdc.db importer)) as [d r0].
  intros [= <- <-]. auto.
Qed.

(** A code whose date is cached is answered from the cache: no driver call,
    no change of state. *)
Lemma lastRecordTime_cached code importer timestamp :
  ecdc.lastRecordCache importer !! code = Some timestamp ->
  ecdc.lastRecordTime code importer = (importer, Ok timestamp).
Proof. unfold ecdc.lastRecordTime. intros ->. reflexivity. Qed.

Lemma lastRecordTime_inv code importer importer' r :
  ecdc.lastRecordTime code importer = (importer', r) ->
  tablesIn importer' = tablesIn importer /\
  ecdc.records importer' = ecdc.records importer /\
  match r with
  | Ok timestamp => ecdc.lastRecordCache importer' !! code = Some timestamp
  | Err _ => True
  end.
Proof.
  unfold ecdc.lastRecordTime.
  destruct (ecdc.lastRecordCache importer !! code) as [ts|] eqn:Hc.
  - intros [= <- <-]. auto.
  - unfold bind at 1.
    destruct (ecdc.onDb (lib.LastRecordDate code) importer) as [imp1 [ts|e]] eqn:Hdb;
      apply onDb_inv in Hdb as (Hrun & Hrec & Hcache);
      apply LastRecordDate_frame in Hrun.
    + cbn. intros [= <- <-]. unfold tablesIn. cbn. rewrite lookup_insert_eq. auto.
    + intros [= <- <-]. unfold tablesIn. auto.
Qed.

Lemma malformed_fails record :
  malformed record ->
  isErr (ecdc.Timestamp record) = true \/ isErr (ecdc.cumulativeOf record) = true.
Proof.
  unfold malformed, ecdc.Timestamp, ecdc.cumulativeOf, ecdc.rbind.
  intros [Hd|[Hm|[Hy|[Hne Hc]]]].
  - left. destruct (strconv.ParseUint (ecdc.Day record)); [discriminate|reflexivity].
  - left. destruct (strconv.ParseUint (ecdc.Day record)); [|reflexivity].
    destruct (strconv.ParseUint (ecdc.Month record)); [discriminate|reflexivity].
  - left. destruct (strconv.ParseUint (ecdc.Day record)); [|reflexivity].
    destruct (strconv.ParseUint (ecdc.Month record)); [|reflexivity].
    destruct (strconv.ParseUint (ecdc.Year record)); [discriminate|reflexivity].
  - right. destruct (ecdc.CumulativeCases record) as [|c s]; [contradiction|].
    cbn. exact Hc.
Qed.

(** The empty cumulative incidence is 0, not an error. *)
Lemma cumulativeOf_empty record :
  ecdc.CumulativeCases record = "" -> ecdc.cumulativeOf record = Ok float64_zero.
Proof. unfold ecdc.cumulativeOf. intros ->. reflexivity. Qed.

(** Whatever the storage does, the loop of [Import] leaves Cases alone and
    only appends to Countries; every fact it stages beyond those it started
    with points to a row of Countries. *)
Lemma importLoop_frame (rs : list ecdc.Record) :
  forall acc importer importer' r,
    ecdc.importLoop rs acc importer = (importer', r) ->
    sql.tblCases (tablesIn importer') = sql.tblCases (tablesIn importer) /\
    (exists extra, sql.tblCountries (tablesIn importer')
                   = sql.tblCountries (tablesIn importer) ++ extra) /\
    ecdc.records importer' = ecdc.records importer /\
    match r with
    | Ok staged =>
      exists new, staged = acc ++ new /\
        Forall (fun f => exists c, lib.CountryPtr f = Some c /\
                  rowOfCountry c ∈ sql.tblCountries (tablesIn importer')) new
    | Err _ => True
    end.
Proof.
  induction rs as [|record rest IH]; intros acc importer importer' r Hrun.
  - cbn in Hrun. injection Hrun as <- <-. split; [reflexivity|].
    split; [exists []; by rewrite app_nil_r|]. split; [reflexivity|].
    exists []. split; [by rewrite app_nil_r|constructor].
  - cbn [ecdc.importLoop] in Hrun. unfold bind at 1 in Hrun.
    destruct (ecdc.lastRecordTime (ecdc.CountryCode record) importer)
      as [imp1 [lastRecord|e]] eqn:Hlast;
      apply lastRecordTime_inv in Hlast as (Ht1 & Hr1 & _).
    2:{ injection Hrun as <- <-. rewrite Ht1. split; [reflexivity|].
        split; [exists []; by rewrite app_nil_r|]. auto. }
    unfold bind at 1, lift at 1 in Hrun.
    destruct (ecdc.Timestamp record) as [timestamp|e].
    2:{ injection Hrun as <- <-. rewrite Ht1. split; [reflexivity|].
        split; [exists []; by rewrite app_nil_r|]. auto. }
    unfold bind at 1, lift at 1 in Hrun.
    destruct (ecdc.cumulativeOf record) as [cumulative|e].
    2:{ injection Hrun as <- <-. rewrite Ht1. split; [reflexivity|].
        split; [exists []; by rewrite app_nil_r|]. auto. }
    destruct (negb (time.Before lastRecord timestamp)).
    + apply IH in Hrun as (Hc & He & Hr & Hs). rewrite Hc, Ht1, Hr, Hr1.
      split; [reflexivity|]. split; [|split; [reflexivity|exact Hs]].
      destruct He as [extra He]. exists extra. rewrite He, Ht1. reflexivity.
    + unfold bind at 1 in Hrun.
      destruct (ecdc.onDb _ imp1) as [imp2 [country|e]] eqn:Hput;
        apply onDb_inv in Hput as (Hput & Hr2 & _);
        apply PutCountry_frame in Hput as (Hc2 & [extra2 He2] & Hcountry).
      2:{ injection Hrun as <- <-. unfold tablesIn in *. rewrite Hc2, He2, Ht1.
          split; [reflexivity|]. split; [eexists; reflexivity|].
          split; [congruence|exact I]. }
      apply IH in Hrun as (Hc & [extra He] & Hr & Hs). unfold tablesIn in *.
      split; [congruence|].
      split; [exists (extra2 ++ extra); rewrite He, He2, Ht1, app_assoc; reflexivity|].
      split; [congruence|].
      destruct r as [staged|e]; [|exact I].
      destruct Hs as (new & -> & Hnew). eexists. rewrite <- app_assoc.
      split; [reflexivity|]. cbn. constructor; [|exact Hnew].
      exists country. split; [reflexivity|]. rewrite He.
      apply elem_of_app. left. apply Hcountry.
Qed.

(** A malformed record anywhere in the batch makes the loop fail. *)
Lemma importLoop_malformed (rs : list ecdc.Record) :
  Exists malformed rs ->
  forall acc importer, isErr (snd (ecdc.importLoop rs acc importer)) = true.
Proof.
  induction rs as [|record rest IH]; intros Hex acc importer; [inversion Hex|].
  cbn [ecdc.importLoop]. unfold bind at 1.
  destruct (ecdc.lastRecordTime (ecdc.CountryCode record) importer)
    as [imp1 [lastRecord|e]]; [|reflexivity].
  unfold bind at 1, lift at 1.
  destruct (ecdc.Timestamp record) as [timestamp|e] eqn:Hts; [|reflexivity].
  unfold bind at 1, lift at 1.
  destruct (ecdc.cumulativeOf record) as [cumulative|e] eqn:Hcum; [|reflexivity].
  assert (Hrest : Exists malformed rest).
  { apply Exists_cons in Hex as [Hbad|Hrest]; [|exact Hrest].
    apply malformed_fails in Hbad. rewrite Hts, Hcum in Hbad.
    destruct Hbad; discriminate. }
  destruct (negb (time.Before lastRecord timestamp)); [apply IH; exact Hrest|].
  unfold bind at 1.
  destruct (ecdc.onDb _ imp1) as [imp2 [country|e]]; [|reflexivity].
  apply IH. exact Hrest.
Qed.

(** C6. Import validation aborts: whatever the storage does, a batch that
    holds a record whose day, month or year does not parse, or whose
    cumulative incidence is neither empty nor a number, makes the whole
    import fail with an error and leaves Cases as it was; the empty
    cumulative incidence stands for 0 and is no error. *)
Theorem Import_aborts_on_malformed (rs : list ecdc.Record) (db : lib.Database) :
  (Exists malformed rs ->
   exists db' e,
     ecdc.DataSource_Import rs db = (db', Err e) /\
     sql.tblCases (tablesOf db') = sql.tblCases (tablesOf db)) /\
  (forall record, ecdc.CumulativeCases record = "" ->
                  ecdc.cumulativeOf record = Ok float64_zero).
Proof.
  split; [|exact cumulativeOf_empty].
  intros Hex. unfold ecdc.DataSource_Import, ecdc.Import. cbn [ecdc.records]. unfold bind.
  pose proof (importLoop_malformed rs Hex []
                {| ecdc.db := db; ecdc.records := rs; ecdc.lastRecordCache := ∅ |}) as Herr.
  destruct (ecdc.importLoop rs [] _) as [imp' [staged|e]] eqn:Hloop; [discriminate|].
  apply importLoop_frame in Hloop as (Hc & _). eexists _, _. split; [reflexivity|].
  exact Hc.
Qed.

(** C9. Dimension versions outlive a failed batch: when the loop of
    [Import] has staged its facts and [ImportRecords] then fails, the import
    fails with that error, Cases is as it was before the import, and
    Countries is as the loop left it: what it held before, followed by the
    versions minted for the batch, among them the row every staged fact
    points to. *)
Theorem Import_failure_keeps_countries (importer importer1 : ecdc.ecdcImporter)
    (staged : list lib.CovidStatisticsRecord) (db2 : lib.Database) (e : error) :
  ecdc.importLoop (ecdc.records importer) [] importer = (importer1, Ok staged) ->
  lib.ImportRecords staged (ecdc.db importer1) = (db2, Err e) ->
  snd (ecdc.Import importer) = Err e /\
  ecdc.db (fst (ecdc.Import importer)) = db2 /\
  sql.tblCases (tablesOf db2) = sql.tblCases (tablesIn importer) /\
  sql.tblCountries (tablesOf db2) = sql.tblCountries (tablesIn importer1) /\
  (exists minted, sql.tblCountries (tablesOf db2)
                  = sql.tblCountries (tablesIn importer) ++ minted) /\
  Forall (fun f => exists c, lib.CountryPtr f = Some c /\
            rowOfCountry c ∈ sql.tblCountries (tablesOf db2)) staged.
Proof.
  intros Hloop Himport.
  pose proof (ImportRecords_outcome staged (ecdc.db importer1)) as Hatomic.
  rewrite Himport in Hatomic.
  pose proof (importLoop_frame _ _ _ _ _ Hloop) as (Hc & [minted Hm] & _ & new & Hnew & Hin).
  cbn in Hnew. subst new. unfold tablesIn in *.
  unfold ecdc.Import, bind. rewrite Hloop. unfold ecdc.onDb. rewrite Himport. cbn.
  rewrite Hatomic. repeat split; try assumption; try reflexivity.
  exists minted. exact Hm.
Qed.

End ImporterFrames.

(** ** Consistent stores *)

Section Staging.
Context `{GoRuntime}.

Lemma consistent_empty : consistent sql.empty.
Proof. split; [constructor|]. intros c Hc. inversion Hc. Qed.

Lemma consistent_afterMint code geoID name population continent db :
  consistent (tablesOf db) ->
  consistent (tablesOf (afterMint code geoID name population continent db)).
Proof.
  intros [Hnd Hfk]. split; cbn.
  - rewrite fmap_app. apply NoDup_app. split; [exact Hnd|]. split; [|apply NoDup_singleton].
    intros id Hid. apply list_elem_of_fmap in Hid as (k & -> & Hk).
    apply Id_lt_nextCountryId in Hk. cbn. intros Hin.
    apply list_elem_of_singleton in Hin. lia.
  - intros c Hc. destruct (Hfk c Hc) as (k & Hk & Hid). exists k.
    split; [apply elem_of_app; left; exact Hk|exact Hid].
Qed.

(** A version minted for a consistent store joins no fact. *)
Lemma casesJoinCountries_afterMint code geoID name population continent db :
  consistent (tablesOf db) ->
  sql.casesJoinCountries (tablesOf (afterMint code geoID name population continent db))
  = sql.casesJoinCountries (tablesOf db).
Proof.
  intros [_ Hfk]. unfold sql.casesJoinCountries. cbn.
  induction (sql.tblCases (tablesOf db)) as [|c l IH]; [reflexivity|].
  cbn. rewrite IH by (intros c' Hc'; apply Hfk; right; exact Hc'). f_equal.
  rewrite filter_app. destruct (Hfk c) as (k & Hk & Hid); [left|].
  rewrite filter_cons_False, filter_nil, app_nil_r; [reflexivity|].
  cbn. apply Id_lt_nextCountryId in Hk. lia.
Qed.

Lemma lastDate_join code t1 t2 :
  sql.casesJoinCountries t1 = sql.casesJoinCountries t2 ->
  lastDate code t1 = lastDate code t2.
Proof. unfold lastDate, sql.selectLastDate. intros ->. reflexivity. Qed.

Lemma PutCountry_putQuiet (record : ecdc.Record) (db : lib.Database) :
  quiet db ->
  lib.PutCountry (ecdc.CountryCode record) (ecdc.GeoID record) (ecdc.CountryName record)
    (ecdc.Population record) (ecdc.Continent record) db
  = (fst (putQuiet record db), Ok (snd (putQuiet record db))).
Proof.
  intros Hq. rewrite PutCountry_quiet by exact Hq. unfold putQuiet.
  destruct (sql.selectCurrentRevision _ _) as [|k rest]; [reflexivity|].
  destruct (differs _ _ _ _ _); reflexivity.
Qed.

Lemma putQuiet_spec (record : ecdc.Record) (db : lib.Database) :
  quiet db -> consistent (tablesOf db) ->
  quiet (fst (putQuiet record db)) /\
  consistent (tablesOf (fst (putQuiet record db))) /\
  sql.tblCases (tablesOf (fst (putQuiet record db))) = sql.tblCases (tablesOf db) /\
  (exists extra, sql.tblCountries (tablesOf (fst (putQuiet record db)))
                 = sql.tblCountries (tablesOf db) ++ extra) /\
  sql.casesJoinCountries (tablesOf (fst (putQuiet record db)))
  = sql.casesJoinCountries (tablesOf db) /\
  countryFor record (tablesOf (fst (putQuiet record db))) (snd (putQuiet record db)).
Proof.
  intros Hq Hc.
  assert (Hput : forall code geoID name population continent,
    let db1 := afterMint code geoID name population continent db in
    let c := minted code geoID name population continent db in
    quiet db1 /\ consistent (tablesOf db1) /\
    sql.tblCases (tablesOf db1) = sql.tblCases (tablesOf db) /\
    (exists extra, sql.tblCountries (tablesOf db1) = sql.tblCountries (tablesOf db) ++ extra) /\
    sql.casesJoinCountries (tablesOf db1) = sql.casesJoinCountries (tablesOf db) /\
    rowOfCountry c ∈ sql.tblCountries (tablesOf db1)).
  { intros. split; [apply afterMint_quiet; exact Hq|].
    split; [apply consistent_afterMint; exact Hc|]. split; [reflexivity|].
    split; [eexists; reflexivity|].
    split; [apply casesJoinCountries_afterMint; exact Hc|].
    cbn. apply elem_of_app. right. left. }
  unfold putQuiet, countryFor.
  destruct (sql.selectCurrentRevision _ _) as [|k rest] eqn:Hsel.
  - cbn [fst snd]. destruct (Hput (ecdc.CountryCode record) (ecdc.GeoID record)
      (ecdc.CountryName record) (ecdc.Population record) (ecdc.Continent record))
      as (? & ? & ? & ? & ? & ?). repeat (split; [assumption|]); repeat split; reflexivity.
  - destruct (differs _ _ _ _ _) eqn:Hd.
    + cbn [fst snd]. destruct (Hput (ecdc.CountryCode record) (ecdc.GeoID record)
        (ecdc.CountryName record) (ecdc.Population record) (ecdc.Continent record))
        as (? & ? & ? & ? & ? & ?). repeat (split; [assumption|]); repeat split; reflexivity.
    + cbn [fst snd]. apply selectCurrentRevision_head in Hsel as [Hk Hcode].
      apply differs_false in Hd as (? & ? & ? & ?).
      rewrite rowOfCountry_countryOfRow.
      split; [exact Hq|]. split; [exact Hc|]. split; [reflexivity|].
      split; [exists []; by rewrite app_nil_r|]. split; [reflexivity|].
      repeat split; assumption.
Qed.

End Staging.

(** ** The loop of the import on a store that answers *)

Section ImportLoop.
Context `{GoRuntime}.

Lemma wellFormed_Ok record :
  wellFormed record ->
  ecdc.Timestamp record = Ok (timestampOf record) /\
  ecdc.cumulativeOf record = Ok (cumulativeValueOf record).
Proof.
  unfold wellFormed, timestampOf, cumulativeValueOf. intros [Ht Hc].
  destruct (ecdc.Timestamp record); [|discriminate].
  destruct (ecdc.cumulativeOf record); [|discriminate]. auto.
Qed.

(** The timestamp of a record that parses is a local midnight. *)
Lemma timestampOf_normal record :
  wellFormed record -> lib.normalizeDate (timestampOf record) = timestampOf record.
Proof.
  intros [Ht _]. unfold timestampOf, ecdc.Timestamp, ecdc.rbind in *.
  destruct (strconv.ParseUint (ecdc.Day record)); [|discriminate].
  destruct (strconv.ParseUint (ecdc.Month record)); [|discriminate].
  destruct (strconv.ParseUint (ecdc.Year record)); [|discriminate].
  apply normalizeDate_Date.
Qed.

Lemma countryFor_grows record t t' c extra :
  sql.tblCountries t' = sql.tblCountries t ++ extra ->
  countryFor record t c -> countryFor record t' c.
Proof.
  unfold countryFor. intros -> (Hin & Hrest). split; [|exact Hrest].
  apply elem_of_app. left. exact Hin.
Qed.

Lemma stageAll_spec (rs : list ecdc.Record) :
  forall db,
    quiet db -> consistent (tablesOf db) ->
    quiet (fst (stageAll rs db)) /\
    consistent (tablesOf (fst (stageAll rs db))) /\
    sql.tblCases (tablesOf (fst (stageAll rs db))) = sql.tblCases (tablesOf db) /\
    (exists extra, sql.tblCountries (tablesOf (fst (stageAll rs db)))
                   = sql.tblCountries (tablesOf db) ++ extra) /\
    sql.casesJoinCountries (tablesOf (fst (stageAll rs db)))
    = sql.casesJoinCountries (tablesOf db) /\
    Forall2 (fun record f =>
               exists c, f = factOf record c /\
                         countryFor record (tablesOf (fst (stageAll rs db))) c)
            rs (snd (stageAll rs db)).
Proof.
  induction rs as [|record rest IH]; intros db Hq Hc.
  - cbn. split; [exact Hq|]. split; [exact Hc|]. split; [reflexivity|].
    split; [exists []; by rewrite app_nil_r|]. split; [reflexivity|constructor].
  - cbn [stageAll].
    destruct (putQuiet_spec record db Hq Hc) as (Hq1 & Hc1 & Hcases1 & [extra1 He1] & Hj1 & Hfor).
    destruct (putQuiet record db) as [db1 country]. cbn [fst snd] in *.
    destruct (IH db1 Hq1 Hc1) as (Hq2 & Hc2 & Hcases2 & [extra2 He2] & Hj2 & Hall).
    destruct (stageAll rest db1) as [db2 facts]. cbn [fst snd] in *.
    split; [exact Hq2|]. split; [exact Hc2|]. split; [congruence|].
    split; [exists (extra1 ++ extra2); rewrite He2, He1, app_assoc; reflexivity|].
    split; [congruence|].
    constructor; [|exact Hall].
    exists country. split; [reflexivity|].
    eapply countryFor_grows; [exact He2|exact Hfor].
Qed.

#[global] Instance newer_dec watermark record : Decision (newer watermark record).
Proof. unfold newer. apply _. Defined.

Lemma lastRecordTime_quiet (watermark : string -> Z) code importer :
  quiet (ecdc.db importer) ->
  (forall code', lastDate code' (tablesIn importer) = watermark code') ->
  (forall code' ts, ecdc.lastRecordCache importer !! code' = Some ts -> ts = watermark code') ->
  exists importer1,
    ecdc.lastRecordTime code importer = (importer1, Ok (watermark code)) /\
    ecdc.db importer1 = ecdc.db importer /\
    ecdc.records importer1 = ecdc.records importer /\
    (forall code' ts, ecdc.lastRecordCache importer1 !! code' = Some ts ->
                      ts = watermark code').
Proof.
  intros Hq Hwm Hcache. unfold ecdc.lastRecordTime.
  destruct (ecdc.lastRecordCache importer !! code) as [ts|] eqn:Hhit.
  - exists importer. rewrite (Hcache _ _ Hhit). auto.
  - unfold bind, ecdc.onDb. rewrite LastRecordDate_quiet by exact Hq. cbn.
    unfold tablesIn in Hwm. rewrite Hwm. eexists. split; [reflexivity|]. cbn.
    repeat split. intros code' ts. destruct (decide (code = code')) as [<-|Hne].
    + rewrite lookup_insert_eq. intros [= <-]. reflexivity.
    + rewrite lookup_insert_ne by exact Hne. apply Hcache.
Qed.

(** The loop of [Import] on a store that answers and is consistent, for
    records that all parse: it stages the newer records, in order, and
    leaves the database that putting their countries gives. *)
Lemma importLoop_quiet (watermark : string -> Z) (rs : list ecdc.Record) :
  forall acc importer,
    quiet (ecdc.db importer) ->
    consistent (tablesIn importer) ->
    Forall wellFormed rs ->
    (forall code, lastDate code (tablesIn importer) = watermark code) ->
    (forall code ts, ecdc.lastRecordCache importer !! code = Some ts -> ts = watermark code) ->
    exists importer',
      ecdc.importLoop rs acc importer =
        (importer', Ok (acc ++ snd (stageAll (filter (newer watermark) rs)
                                      (ecdc.db importer)))) /\
      ecdc.db importer' = fst (stageAll (filter (newer watermark) rs) (ecdc.db importer)) /\
      ecdc.records importer' = ecdc.records importer.
Proof.
  induction rs as [|record rest IH]; intros acc importer Hq Hc Hwf Hwm Hcache.
  - exists importer. cbn. rewrite app_nil_r. auto.
  - apply Forall_cons in Hwf as [Hrec Hwf].
    destruct (wellFormed_Ok record Hrec) as [Hts Hcum].
    destruct (lastRecordTime_quiet watermark (ecdc.CountryCode record) importer Hq Hwm Hcache)
      as (imp1 & Hlast & Hdb1 & Hrec1 & Hcache1).
    cbn [ecdc.importLoop]. unfold bind at 1. rewrite Hlast.
    unfold bind at 1, lift at 1. rewrite Hts.
    unfold bind at 1, lift at 1. rewrite Hcum.
    unfold time.Before.
    destruct (decide (newer watermark record)) as [Hadm|Hnot].
    + rewrite filter_cons_True by exact Hadm. unfold newer in Hadm.
      replace (watermark (ecdc.CountryCode record) <? timestampOf record) with true
        by (symmetry; apply Z.ltb_lt; exact Hadm).
      cbn [negb]. unfold bind at 1. unfold ecdc.onDb at 1.
      rewrite Hdb1, PutCountry_putQuiet by exact Hq.
      cbn [stageAll].
      destruct (putQuiet_spec record (ecdc.db importer) Hq Hc)
        as (Hq2 & Hc2 & _ & _ & Hj2 & _).
      destruct (putQuiet record (ecdc.db importer)) as [db2 country]. cbn [fst snd] in *.
      set (imp2 := {| ecdc.db := db2; ecdc.records := ecdc.records imp1;
                      ecdc.lastRecordCache := ecdc.lastRecordCache imp1 |}).
      destruct (IH (acc ++ [factOf record country]) imp2) as (imp' & Hloop & Hdb' & Hrec');
        try assumption.
      { intros code. unfold tablesIn. cbn. rewrite <- Hwm. apply lastDate_join. exact Hj2. }
      exists imp'. cbn in Hloop, Hdb', Hrec'. unfold factOf in Hloop at 1.
      rewrite Hloop. destruct (stageAll _ db2) as [db3 facts]. cbn [fst snd] in *.
      rewrite <- app_assoc. cbn. split; [reflexivity|]. split; [exact Hdb'|congruence].
    + rewrite filter_cons_False by exact Hnot. unfold newer in Hnot.
      replace (watermark (ecdc.CountryCode record) <? timestampOf record) with false
        by (symmetry; apply Z.ltb_ge; lia).
      cbn [negb].
      destruct (IH acc imp1) as (imp' & Hloop & Hdb' & Hrec'); try assumption.
      { rewrite Hdb1. exact Hq. }
      { unfold tablesIn in *. rewrite Hdb1. exact Hc. }
      { intros code. unfold tablesIn in *. rewrite Hdb1. apply Hwm. }
      exists imp'. rewrite Hloop, Hdb', Hrec', Hdb1. auto.
Qed.

End ImportLoop.

(** ** The batch insert on a store that answers *)

Section BatchQuiet.
Context `{GoRuntime}.

Lemma insertRecords_quiet (tx : sql.Tx) (records : list lib.CovidStatisticsRecord) :
  forall db,
    quiet db ->
    Forall (fun f => is_Some (lib.CountryPtr f)) records ->
    NoDup (keyOf <$> rowsOf records) ->
    (forall r, r ∈ rowsOf records -> keyOf r ∉ (keyOf <$> sql.tblCases (tablesOf db))) ->
    lib.insertRecords tx records db
    = (setTables (appendCases (rowsOf records) (tablesOf db)) db, Ok tt).
Proof.
  induction records as [|record rest IH]; intros db Hq Hsome Hnd Hfresh.
  - destruct db as [[t o] cache]. cbn. unfold setTables, tablesOf. cbn.
    rewrite appendCases_nil. reflexivity.
  - apply Forall_cons in Hsome as [[country Hc] Hsome].
    rewrite (rowsOf_cons_Some _ _ _ Hc) in *. cbn in Hnd.
    apply NoDup_cons in Hnd as [Hnotin Hnd].
    destruct db as [[t o] cache]. unfold quiet in Hq. cbn in Hq. subst o.
    cbn [lib.insertRecords]. rewrite Hc.
    assert (Hins : sql.insertCase (lib.caseRow country record) t
                   = Ok (appendCases [lib.caseRow country record] t)).
    { apply insertCase_Ok. split; [|reflexivity]. apply Hfresh. left. }
    unfold bind, catch, lib.zoom, sql.ExecInsertCase, bind, sql.call. cbn.
    unfold tablesOf in *. cbn in *. rewrite Hins. cbn.
    rewrite IH; unfold quiet, tablesOf; cbn; try assumption; try reflexivity.
    + unfold setTables. cbn. rewrite appendCases_app. reflexivity.
    + intros r Hr Hin. rewrite fmap_app, elem_of_app in Hin. destruct Hin as [Hin|Hin].
      * apply (Hfresh r); [right; exact Hr|exact Hin].
      * cbn in Hin. apply list_elem_of_singleton in Hin. apply Hnotin.
        rewrite <- Hin. apply list_elem_of_fmap. eauto.
Qed.

(** [ImportRecords] on a store that answers, for a batch that fits: every
    row is appended. *)
Lemma ImportRecords_quiet (records : list lib.CovidStatisticsRecord) (db : lib.Database) :
  quiet db ->
  Forall (fun f => is_Some (lib.CountryPtr f)) records ->
  NoDup (keyOf <$> rowsOf records) ->
  (forall r, r ∈ rowsOf records -> keyOf r ∉ (keyOf <$> sql.tblCases (tablesOf db))) ->
  lib.ImportRecords records db
  = (setTables (appendCases (rowsOf records) (tablesOf db)) db, Ok tt).
Proof.
  intros Hq Hsome Hnd Hfresh.
  pose proof (insertRecords_quiet (tablesOf db) records db Hq Hsome Hnd Hfresh) as Hloop.
  destruct db as [[t o] cache]. unfold quiet in Hq. cbn in Hq. subst o.
  unfold tablesOf in Hloop. cbn in Hloop.
  unfold lib.ImportRecords, bind, lib.zoom, sql.Begin, sql.Prepare, sql.Commit, bind,
    gets, sql.call. cbn. rewrite Hloop. reflexivity.
Qed.

Lemma rowsOf_staged (rs : list ecdc.Record) (t : sql.Tables)
    (facts : list lib.CovidStatisticsRecord) :
  Forall wellFormed rs ->
  Forall2 (fun record f => exists c, f = factOf record c /\ countryFor record t c) rs facts ->
  Forall (fun f => is_Some (lib.CountryPtr f)) facts /\
  Forall2 (fun record row => rowFor record t row) rs (rowsOf facts).
Proof.
  intros Hwf Hall. induction Hall as [|record f rs facts (c & -> & Hc) Hall IH].
  - split; constructor.
  - apply Forall_cons in Hwf as [Hrec Hwf]. destruct (IH Hwf) as [Hsome Hrows].
    split; [constructor; [eexists; reflexivity|exact Hsome]|].
    rewrite (rowsOf_cons_Some _ _ c) by reflexivity.
    constructor; [|exact Hrows].
    destruct Hc as (Hin & Hcode & Hgeo & Hname & Hpop & Hcont).
    unfold rowFor. cbn. rewrite (timestampOf_normal record Hrec).
    repeat split. exists (rowOfCountry c). cbn. auto 10.
Qed.

End BatchQuiet.

(** ** The incremental filter *)

Section Incremental.
Context `{GoRuntime}.

(** C3. Incremental watermark filter: on a consistent store that answers,
    for records that all parse, the loop of [Import] stages exactly the
    records whose date is strictly after the last known date of their code,
    in order, each with the country [PutCountry] gives it; the last known
    date of a code is the greatest date stored under any version of it, or
    the epoch (Unix time 0) when there is none, which is what
    [LastRecordDate] answers, so that a record of a code without facts is
    staged exactly when its date is strictly after the epoch; a code whose
    date is cached is answered from the cache, without a query, and every
    date asked for is cached. *)
Theorem Import_watermark_filter (rs : list ecdc.Record) (db : lib.Database) :
  quiet db -> consistent (tablesOf db) -> Forall wellFormed rs ->
  let watermark code := lastDate code (tablesOf db) in
  (exists importer' staged,
     ecdc.importLoop rs []
       {| ecdc.db := db; ecdc.records := rs; ecdc.lastRecordCache := ∅ |}
     = (importer', Ok staged) /\
     Forall2 (fun record f =>
                exists c, f = factOf record c /\ countryFor record (tablesIn importer') c)
             (filter (fun record => watermark (ecdc.CountryCode record) < timestampOf record) rs)
             staged) /\
  (forall code, lib.LastRecordDate code db = (db, Ok (time.Unix (watermark code)))) /\
  (forall code d, d ∈ datesOf code (tablesOf db) -> d <= watermark code) /\
  (forall code, datesOf code (tablesOf db) <> [] -> watermark code ∈ datesOf code (tablesOf db)) /\
  (forall code, datesOf code (tablesOf db) = [] ->
     watermark code = time.Time_Unix lib.epochStart /\
     forall record, ecdc.CountryCode record = code ->
       (watermark (ecdc.CountryCode record) < timestampOf record <->
        time.Time_Unix lib.epochStart < timestampOf record)) /\
  (forall importer code timestamp,
     ecdc.lastRecordCache importer !! code = Some timestamp ->
     ecdc.lastRecordTime code importer = (importer, Ok timestamp)) /\
  (forall importer importer' code timestamp,
     ecdc.lastRecordTime code importer = (importer', Ok timestamp) ->
     ecdc.lastRecordCache importer' !! code = Some timestamp).
Proof.
  intros Hq Hc Hwf watermark. split; [|split; [|split; [|split; [|split; [|split]]]]].
  - destruct (importLoop_quiet watermark rs []
                {| ecdc.db := db; ecdc.records := rs; ecdc.lastRecordCache := ∅ |})
      as (imp' & Hloop & Hdb & _); try assumption; try reflexivity.
    { intros code ts. cbn. rewrite lookup_empty. discriminate. }
    cbn in Hloop, Hdb. eexists _, _. split; [exact Hloop|].
    destruct (stageAll_spec (filter (newer watermark) rs) db Hq Hc)
      as (_ & _ & _ & _ & _ & Hall).
    unfold tablesIn. rewrite Hdb. exact Hall.
  - intros code. apply LastRecordDate_quiet. exact Hq.
  - intros code d. apply lastDate_upper.
  - intros code. apply lastDate_in.
  - intros code Hnone. unfold watermark.
    assert (H0 : lastDate code (tablesOf db) = time.Time_Unix lib.epochStart)
      by (apply lastDate_none; exact Hnone).
    split; [exact H0|]. intros record ->. rewrite H0. reflexivity.
  - intros importer code timestamp. apply lastRecordTime_cached.
  - intros importer importer' code timestamp Hrun.
    apply lastRecordTime_inv in Hrun as (_ & _ & Hcache). exact Hcache.
Qed.

Lemma NoDup_fmap_inj_on {A B} (f : A -> B) (l : list A) (x y : A) :
  NoDup (f <$> l) -> x ∈ l -> y ∈ l -> f x = f y -> x = y.
Proof.
  intros Hnd Hx Hy Hf.
  apply list_elem_of_lookup in Hx as [i Hi]. apply list_elem_of_lookup in Hy as [j Hj].
  assert (i = j).
  { eapply NoDup_lookup; [exact Hnd| |].
    - rewrite list_lookup_fmap, Hi. reflexivity.
    - rewrite list_lookup_fmap, Hj, Hf. reflexivity. }
  subst j. congruence.
Qed.

(** The rows of a batch of increasing dates, all after the last known date
    of their code, take keys that are free and distinct. *)
Lemma staged_rows_fit (rs : list ecdc.Record) (t t' : sql.Tables) (rows : list sql.CasesRow) :
  consistent t -> consistent t' ->
  sql.tblCases t' = sql.tblCases t ->
  (exists extra, sql.tblCountries t' = sql.tblCountries t ++ extra) ->
  increasingPerCode rs ->
  Forall (fun record => lastDate (ecdc.CountryCode record) t < timestampOf record) rs ->
  Forall2 (fun record row => rowFor record t' row) rs rows ->
  NoDup (keyOf <$> rows) /\
  forall r, r ∈ rows -> keyOf r ∉ (keyOf <$> sql.tblCases t').
Proof.
  intros [_ Hfk] [Hnd' _] Hcases [extra Hextra] Hinc Hnew Hrows. split.
  - apply NoDup_alt. intros i j key Hi Hj.
    rewrite list_lookup_fmap in Hi, Hj.
    destruct (rows !! i) as [a|] eqn:Ha; [|discriminate].
    destruct (rows !! j) as [b|] eqn:Hb; [|discriminate].
    cbn [fmap option_fmap option_map] in Hi, Hj.
    assert (Hkey : keyOf a = keyOf b) by congruence. clear Hi Hj.
    destruct (Forall2_lookup_r _ _ _ _ _ Hrows Ha) as (ri & Hri & Hda & _ & _ & _ & ka & Hka & Hida & Hca & _).
    destruct (Forall2_lookup_r _ _ _ _ _ Hrows Hb) as (rj & Hrj & Hdb & _ & _ & _ & kb & Hkb & Hidb & Hcb & _).
    unfold keyOf in Hkey. injection Hkey as Hdate Hid.
    assert (ka = kb) by (eapply (NoDup_fmap_inj_on sql.Id); eauto; congruence).
    subst kb.
    destruct (Nat.lt_trichotomy i j) as [Hlt|[Heq|Hgt]]; [|exact Heq|].
    + pose proof (Hinc i j ri rj Hri Hrj Hlt ltac:(congruence)). lia.
    + pose proof (Hinc j i rj ri Hrj Hri Hgt ltac:(congruence)). lia.
  - intros r Hr Hin. apply list_elem_of_lookup in Hr as [i Hi].
    destruct (Forall2_lookup_r _ _ _ _ _ Hrows Hi) as (ri & Hri & Hd & _ & _ & _ & k & Hk & Hid & Hcode & _).
    apply list_elem_of_fmap in Hin as (x & Hkey & Hx).
    unfold keyOf in Hkey. injection Hkey as Hdate Hcid.
    rewrite Hcases in Hx. destruct (Hfk x Hx) as (k0 & Hk0 & Hid0).
    assert (k0 = k).
    { eapply (NoDup_fmap_inj_on sql.Id); [exact Hnd'| |exact Hk|congruence].
      rewrite Hextra. apply elem_of_app. left. exact Hk0. }
    subst k0.
    assert (Hle : sql.Date x <= lastDate (ecdc.CountryCode ri) t).
    { apply lastDate_upper, elem_of_datesOf. exists x, k. auto. }
    rewrite Forall_forall in Hnew.
    assert (Hri' : ri ∈ rs) by (apply list_elem_of_lookup; eauto).
    apply Hnew in Hri'. lia.
Qed.

End Incremental.

(** ** Importing twice *)

Section Idempotence.
Context `{GoRuntime}.

Lemma filter_all {A} (P : A -> Prop) `{!forall x, Decision (P x)} (l : list A) :
  Forall P l -> filter P l = l.
Proof.
  induction 1 as [|x l Hx Hl IH]; [reflexivity|].
  rewrite filter_cons_True by exact Hx. rewrite IH. reflexivity.
Qed.

Lemma filter_none {A} (P : A -> Prop) `{!forall x, Decision (P x)} (l : list A) :
  Forall (fun x => ~ P x) l -> filter P l = [].
Proof.
  induction 1 as [|x l Hx Hl IH]; [reflexivity|].
  rewrite filter_cons_False by exact Hx. exact IH.
Qed.

Lemma rowFor_countries record t t' row :
  sql.tblCountries t' = sql.tblCountries t -> rowFor record t row -> rowFor record t' row.
Proof. unfold rowFor. intros ->. auto. Qed.

(** [DataSource.Import] on a store that answers, in terms of its loop. *)
Lemma DataSource_Import_run (rs : list ecdc.Record) (db : lib.Database)
    (importer' : ecdc.ecdcImporter) (staged : list lib.CovidStatisticsRecord)
    (db' : lib.Database) (r : result unit) :
  ecdc.importLoop rs []
    {| ecdc.db := db; ecdc.records := rs; ecdc.lastRecordCache := ∅ |}
  = (importer', Ok staged) ->
  lib.ImportRecords staged (ecdc.db importer') = (db', r) ->
  ecdc.DataSource_Import rs db = (db', r).
Proof.
  intros Hloop Himport. unfold ecdc.DataSource_Import, ecdc.Import, bind.
  cbn [ecdc.records]. rewrite Hloop. unfold ecdc.onDb. rewrite Himport. reflexivity.
Qed.

(** C1. Re-import idempotence: on a consistent store that answers, a batch
    of records that all parse, whose dates are strictly increasing code by
    code and strictly after the last known date of their code in the store
    (the epoch for a code without facts), is imported in full the first
    time, one row per record, and not at all the second time: the second
    import succeeds and leaves the tables as the first one left them. *)
Theorem Import_twice (rs : list ecdc.Record) (db : lib.Database) :
  quiet db -> consistent (tablesOf db) ->
  Forall wellFormed rs ->
  increasingPerCode rs ->
  Forall (fun record => lastDate (ecdc.CountryCode record) (tablesOf db) < timestampOf record) rs ->
  exists db1 db2 rows,
    ecdc.DataSource_Import rs db = (db1, Ok tt) /\
    sql.tblCases (tablesOf db1) = sql.tblCases (tablesOf db) ++ rows /\
    Forall2 (fun record row => rowFor record (tablesOf db1) row) rs rows /\
    ecdc.DataSource_Import rs db1 = (db2, Ok tt) /\
    tablesOf db2 = tablesOf db1.
Proof.
  intros Hq Hc Hwf Hinc Hnew.
  set (watermark := fun code => lastDate code (tablesOf db)).
  (* the first import *)
  destruct (importLoop_quiet watermark rs []
              {| ecdc.db := db; ecdc.records := rs; ecdc.lastRecordCache := ∅ |})
    as (imp1 & Hloop1 & Hdb1 & _); try assumption; try reflexivity.
  { intros code ts. cbn. rewrite lookup_empty. discriminate. }
  cbn [ecdc.db] in Hloop1, Hdb1.
  rewrite (filter_all (newer watermark) rs) in Hloop1, Hdb1 by exact Hnew.
  destruct (stageAll_spec rs db Hq Hc) as (Hq1 & Hc1 & Hcases1 & Hextra1 & _ & Hall).
  destruct (stageAll rs db) as [dbs facts] eqn:Hstage. cbn [fst snd app] in *.
  destruct (rowsOf_staged rs (tablesOf dbs) facts Hwf Hall) as [Hsome Hrows].
  destruct (staged_rows_fit rs (tablesOf db) (tablesOf dbs) (rowsOf facts)
              Hc Hc1 Hcases1 Hextra1 Hinc Hnew Hrows) as [Hnd Hfresh].
  pose proof (ImportRecords_quiet facts dbs Hq1 Hsome Hnd Hfresh) as Himport1.
  rewrite <- Hdb1 in Himport1 at 1.
  pose proof (DataSource_Import_run _ _ _ _ _ _ Hloop1 Himport1) as Hrun1.
  set (db1 := setTables (appendCases (rowsOf facts) (tablesOf dbs)) dbs) in *.
  assert (Hrows1 : Forall2 (fun record row => rowFor record (tablesOf db1) row)
                     rs (rowsOf facts)).
  { eapply Forall2_impl; [exact Hrows|]. intros record row.
    apply rowFor_countries. reflexivity. }
  (* the store it leaves *)
  assert (Hq' : quiet db1) by exact Hq1.
  assert (Hc' : consistent (tablesOf db1)).
  { destruct Hc1 as [Hids Hfk]. split; [exact Hids|]. intros c Hin. cbn in Hin.
    apply elem_of_app in Hin as [Hin|Hin]; [apply Hfk; exact Hin|].
    apply list_elem_of_lookup in Hin as [i Hi].
    destruct (Forall2_lookup_r _ _ _ _ _ Hrows Hi)
      as (ri & _ & _ & _ & _ & _ & k & Hk & Hid & _).
    exists k. auto. }
  (* the second import *)
  set (watermark1 := fun code => lastDate code (tablesOf db1)).
  assert (Hold : Forall (fun record => ~ newer watermark1 record) rs).
  { apply Forall_forall. intros record Hrec.
    apply list_elem_of_lookup in Hrec as [i Hi].
    destruct (Forall2_lookup_l _ _ _ _ _ Hrows1 Hi)
      as (row & Hrow & Hdate & _ & _ & _ & k & Hk & Hid & Hcode & _).
    unfold newer, watermark1.
    assert (timestampOf record <= lastDate (ecdc.CountryCode record) (tablesOf db1)); [|lia].
    apply lastDate_upper, elem_of_datesOf. exists row, k.
    split; [|auto]. cbn. apply elem_of_app. right.
    apply list_elem_of_lookup. eauto. }
  destruct (importLoop_quiet watermark1 rs []
              {| ecdc.db := db1; ecdc.records := rs; ecdc.lastRecordCache := ∅ |})
    as (imp2 & Hloop2 & Hdb2 & _); try assumption; try reflexivity.
  { intros code ts. cbn. rewrite lookup_empty. discriminate. }
  cbn [ecdc.db] in Hloop2, Hdb2.
  rewrite (filter_none (newer watermark1) rs) in Hloop2, Hdb2 by exact Hold.
  cbn in Hloop2, Hdb2.
  pose proof (ImportRecords_quiet [] db1 Hq') as Himport2.
  rewrite <- Hdb2 in Himport2 at 1.
  pose proof (DataSource_Import_run _ _ _ _ _ _ Hloop2
                (Himport2 ltac:(constructor) ltac:(constructor)
                   ltac:(intros r Hr; inversion Hr))) as Hrun2.
  eexists _, _, _. split; [exact Hrun1|]. split; [|split; [exact Hrows1|]].
  - cbn. rewrite Hcases1. reflexivity.
  - split; [exact Hrun2|]. apply appendCases_nil.
Qed.

End Idempotence.

(** ** The stores the importer builds *)

Section Reachable.
Context `{GoRuntime}.

(** Whatever the storage does, [PutCountry] leaves the tables as they were
    or with the one row it inserts. *)
Lemma PutCountry_tables code geoID name population continent db db' r :
  lib.PutCountry code geoID name population continent db = (db', r) ->
  tablesOf db' = tablesOf db \/
  tablesOf db' = tablesOf (afterMint code geoID name population continent db).
Proof.
  destruct db as [[t o] cache]. unfold lib.PutCountry, lib.newCountryRecord. intros Hrun.
  unfold_calls Hrun. scripts Hrun.
  all: try (injection Hrun as <- <-; auto; fail).
  all: destruct (sql.selectCurrentRevision code t) as [|k rest] eqn:Hsel;
    unfold_calls Hrun; scripts Hrun.
  all: try (injection Hrun as <- <-; auto; fail).
  all: match type of Hrun with
       | context [if ?b then _ else _] => destruct b; unfold_calls Hrun; scripts Hrun
       end.
  all: injection Hrun as <- <-; auto.
Qed.

Lemma PutCountry_consistent code geoID name population continent db db' r :
  lib.PutCountry code geoID name population continent db = (db', r) ->
  consistent (tablesOf db) -> consistent (tablesOf db').
Proof.
  intros Hrun Hc. apply PutCountry_tables in Hrun as [->| ->]; [exact Hc|].
  apply consistent_afterMint. exact Hc.
Qed.

Lemma importLoop_consistent (rs : list ecdc.Record) :
  forall acc importer importer' r,
    ecdc.importLoop rs acc importer = (importer', r) ->
    consistent (tablesIn importer) -> consistent (tablesIn importer').
Proof.
  induction rs as [|record rest IH]; intros acc importer importer' r Hrun Hc.
  - cbn in Hrun. injection Hrun as <- <-. exact Hc.
  - cbn [ecdc.importLoop] in Hrun. unfold bind at 1 in Hrun.
    destruct (ecdc.lastRecordTime (ecdc.CountryCode record) importer)
      as [imp1 [lastRecord|e]] eqn:Hlast;
      apply lastRecordTime_inv in Hlast as (Ht1 & _ & _); rewrite <- Ht1 in Hc.
    2:{ injection Hrun as <- <-. exact Hc. }
    unfold bind at 1, lift at 1 in Hrun.
    destruct (ecdc.Timestamp record) as [timestamp|e]; [|injection Hrun as <- <-; exact Hc].
    unfold bind at 1, lift at 1 in Hrun.
    destruct (ecdc.cumulativeOf record) as [cumulative|e];
      [|injection Hrun as <- <-; exact Hc].
    destruct (negb (time.Before lastRecord timestamp)); [eapply IH; eassumption|].
    unfold bind at 1 in Hrun.
    destruct (ecdc.onDb _ imp1) as [imp2 [country|e]] eqn:Hput;
      apply onDb_inv in Hput as (Hput & _ & _);
      apply PutCountry_consistent in Hput; try exact Hc.
    + eapply IH; eassumption.
    + injection Hrun as <- <-. exact Hput.
Qed.

(** Whatever the storage does, an import keeps a consistent store
    consistent: the stores the importer builds from a new file all are. *)
Lemma DataSource_Import_consistent (rs : list ecdc.Record) (db db' : lib.Database) r :
  ecdc.DataSource_Import rs db = (db', r) ->
  consistent (tablesOf db) -> consistent (tablesOf db').
Proof.
  unfold ecdc.DataSource_Import, ecdc.Import, bind. cbn [ecdc.records]. intros Hrun Hc.
  destruct (ecdc.importLoop rs [] _) as [imp1 [staged|e]] eqn:Hloop.
  - pose proof (importLoop_consistent _ _ _ _ _ Hloop Hc) as Hc1.
    apply importLoop_frame in Hloop as (_ & _ & _ & new & Hnew & Hin). cbn in Hnew. subst new.
    unfold ecdc.onDb in Hrun.
    pose proof (ImportRecords_outcome staged (ecdc.db imp1)) as Hatomic.
    destruct (lib.ImportRecords staged (ecdc.db imp1)) as [db2 [[]|e]];
      injection Hrun as <- <-.
    + destruct Hatomic as (-> & _). destruct Hc1 as [Hids Hfk]. split; [exact Hids|].
      intros c Hc'. cbn in Hc'. apply elem_of_app in Hc' as [Hc'|Hc']; [apply Hfk; exact Hc'|].
      unfold rowsOf in Hc'. apply list_elem_of_omap in Hc' as (f & Hf & Hrow).
      rewrite Forall_forall in Hin. destruct (Hin f Hf) as (country & Hptr & Hk).
      rewrite Hptr in Hrow. cbn in Hrow. injection Hrow as <-.
      exists (rowOfCountry country). split; [exact Hk|reflexivity].
    + unfold tablesIn in Hc1. rewrite Hatomic. exact Hc1.
  - injection Hrun as <- <-. eapply importLoop_consistent; eassumption.
Qed.

End Reachable.

(** ** Dates after the epoch *)

Section AfterEpoch.
Context `{GoRuntime}.

Lemma selectLastDate_head code t d rest :
  sql.selectLastDate code t = d :: rest -> d ∈ datesOf code t.
Proof.
  unfold sql.selectLastDate. fold (datesOf code t). intros Ht.
  apply first_sorted_head in Ht as [Hin _]; [exact Hin|apply _..].
Qed.

Lemma LastRecordDate_after_epoch code db db' timestamp :
  afterEpoch (tablesOf db) ->
  lib.LastRecordDate code db = (db', Ok timestamp) -> 0 <= timestamp.
Proof.
  destruct db as [[t o] cache]. unfold lib.LastRecordDate, tablesOf. cbn.
  intros Hpos Hrun. unfold_calls Hrun. scripts Hrun.
  all: try discriminate.
  all: try (injection Hrun as _ <-; reflexivity).
  all: destruct (sql.selectLastDate code t) as [|d rest] eqn:Hsel;
    unfold_calls Hrun; scripts Hrun; try discriminate;
    try (injection Hrun as _ <-; reflexivity).
  all: injection Hrun as _ <-; apply selectLastDate_head in Hsel;
    apply elem_of_datesOf in Hsel as (c & k & Hc & _ & _ & _ & <-);
    apply Hpos in Hc; unfold time.Unix; lia.
Qed.

Lemma lastRecordTime_after_epoch code importer importer' timestamp :
  afterEpoch (tablesIn importer) -> cacheAfterEpoch importer ->
  ecdc.lastRecordTime code importer = (importer', Ok timestamp) ->
  0 <= timestamp /\ cacheAfterEpoch importer'.
Proof.
  intros Hpos Hcache. unfold ecdc.lastRecordTime.
  destruct (ecdc.lastRecordCache importer !! code) as [ts|] eqn:Hhit.
  - intros [= <- <-]. split; [eapply Hcache; exact Hhit|exact Hcache].
  - unfold bind at 1.
    destruct (ecdc.onDb (lib.LastRecordDate code) importer) as [imp1 [ts|e]] eqn:Hdb;
      [|discriminate].
    apply onDb_inv in Hdb as (Hrun & _ & Hc1).
    apply LastRecordDate_after_epoch in Hrun; [|exact Hpos].
    cbn. intros [= <- <-]. split; [exact Hrun|].
    intros code' ts'. cbn. destruct (decide (code = code')) as [<-|Hne].
    + rewrite lookup_insert_eq. intros [= <-]. exact Hrun.
    + rewrite lookup_insert_ne by exact Hne. rewrite Hc1. apply Hcache.
Qed.

Lemma Timestamp_normal record timestamp :
  ecdc.Timestamp record = Ok timestamp -> lib.normalizeDate timestamp = timestamp.
Proof.
  unfold ecdc.Timestamp, ecdc.rbind.
  destruct (strconv.ParseUint (ecdc.Day record)); [|discriminate].
  destruct (strconv.ParseUint (ecdc.Month record)); [|discriminate].
  destruct (strconv.ParseUint (ecdc.Year record)); [|discriminate].
  intros [= <-]. apply normalizeDate_Date.
Qed.

(** Whatever the storage does, the facts the loop of [Import] stages on a
    store whose facts are dated after the epoch are dated after the epoch
    too. *)
Lemma importLoop_after_epoch (rs : list ecdc.Record) :
  forall acc importer importer' staged,
    afterEpoch (tablesIn importer) -> cacheAfterEpoch importer ->
    Forall (fun f => 0 < lib.normalizeDate (lib.Date f)) acc ->
    ecdc.importLoop rs acc importer = (importer', Ok staged) ->
    Forall (fun f => 0 < lib.normalizeDate (lib.Date f)) staged.
Proof.
  induction rs as [|record rest IH]; intros acc importer importer' staged Hpos Hcache Hacc Hrun.
  - cbn in Hrun. injection Hrun as _ <-. exact Hacc.
  - cbn [ecdc.importLoop] in Hrun. unfold bind at 1 in Hrun.
    destruct (ecdc.lastRecordTime (ecdc.CountryCode record) importer)
      as [imp1 [lastRecord|e]] eqn:Hlast; [|discriminate].
    pose proof (lastRecordTime_inv _ _ _ _ Hlast) as (Ht1 & _ & _).
    apply lastRecordTime_after_epoch in Hlast as [Hge Hcache1]; try assumption.
    unfold bind at 1, lift at 1 in Hrun.
    destruct (ecdc.Timestamp record) as [timestamp|e] eqn:Hts; [|discriminate].
    unfold bind at 1, lift at 1 in Hrun.
    destruct (ecdc.cumulativeOf record) as [cumulative|e]; [|discriminate].
    unfold time.Before in Hrun.
    destruct (lastRecord <? timestamp) eqn:Hlt; cbn [negb] in Hrun.
    + unfold bind at 1 in Hrun.
      destruct (ecdc.onDb _ imp1) as [imp2 [country|e]] eqn:Hput; [|discriminate].
      apply onDb_inv in Hput as (Hput & _ & Hc2).
      apply PutCountry_frame in Hput as (Hcases2 & _ & _).
      eapply IH; [| | |exact Hrun].
      * unfold afterEpoch, tablesIn in *. rewrite Hcases2, Ht1. exact Hpos.
      * unfold cacheAfterEpoch in *. rewrite Hc2. exact Hcache1.
      * apply Forall_app. split; [exact Hacc|]. constructor; [|constructor]. cbn.
        rewrite (Timestamp_normal _ _ Hts). apply Z.ltb_lt in Hlt. lia.
    + eapply IH; [| | |exact Hrun]; try assumption.
      unfold afterEpoch in *. rewrite Ht1. exact Hpos.
Qed.

(** Whatever the storage does, an import keeps every stored fact dated
    after the epoch: the stores the importer builds from a new file all
    have it so. *)
Lemma DataSource_Import_after_epoch (rs : list ecdc.Record) (db db' : lib.Database) r :
  ecdc.DataSource_Import rs db = (db', r) ->
  afterEpoch (tablesOf db) -> afterEpoch (tablesOf db').
Proof.
  unfold ecdc.DataSource_Import, ecdc.Import, bind. cbn [ecdc.records]. intros Hrun Hpos.
  destruct (ecdc.importLoop rs [] _) as [imp1 [staged|e]] eqn:Hloop.
  - assert (Hstaged : Forall (fun f => 0 < lib.normalizeDate (lib.Date f)) staged).
    { eapply importLoop_after_epoch; [| | |exact Hloop].
      - exact Hpos.
      - intros code ts. cbn. rewrite lookup_empty. discriminate.
      - constructor. }
    apply importLoop_frame in Hloop as (Hcases & _). unfold tablesIn in Hcases. cbn in Hcases.
    unfold ecdc.onDb in Hrun.
    pose proof (ImportRecords_outcome staged (ecdc.db imp1)) as Hout.
    destruct (lib.ImportRecords staged (ecdc.db imp1)) as [db2 [[]|e]];
      injection Hrun as <- <-.
    + destruct Hout as (-> & _). intros c Hc. cbn in Hc. rewrite Hcases in Hc.
      apply elem_of_app in Hc as [Hc|Hc]; [apply Hpos; exact Hc|].
      unfold rowsOf in Hc. apply list_elem_of_omap in Hc as (f & Hf & Hrow).
      rewrite Forall_forall in Hstaged. apply Hstaged in Hf.
      destruct (lib.CountryPtr f); [|discriminate]. cbn in Hrow. injection Hrow as <-.
      exact Hf.
    + unfold afterEpoch. rewrite Hout, Hcases. exact Hpos.
  - injection Hrun as <- <-. apply importLoop_frame in Hloop as (Hcases & _).
    unfold afterEpoch, tablesIn in *. cbn in Hcases. rewrite Hcases. exact Hpos.
Qed.

(** On such a store the lower bound of [RetrieveRecords] leaves no fact
    out: a fact is selected exactly when its country matches. *)
Lemma RetrieveRecords_selects_stored (query : lib.CountryQuery) (t : sql.Tables)
    (f : sql.CasesRow) :
  afterEpoch t ->
  (f ∈ selected (lib.countryQuery (lib.QueryType query)) (lib.Query query)
         (lib.normalizeDate (time.Unix 0)) t <->
   f ∈ sql.tblCases t /\
   exists k, k ∈ sql.tblCountries t /\ sql.Id k = sql.CountryId f /\ lookupMatches query k).
Proof.
  intros Hpos. rewrite elem_of_selected. pose proof (normalizeDate_le (time.Unix 0)) as Hle.
  unfold time.Unix in *. split.
  - intros (Hf & _ & k & Hk & Hid & Hcol). split; [exact Hf|]. exists k.
    rewrite <- columnIs_lookupMatches. auto.
  - intros (Hf & k & Hk & Hid & Hcol). split; [exact Hf|].
    split; [apply Hpos in Hf; lia|]. exists k. rewrite columnIs_lookupMatches. auto.
Qed.

End AfterEpoch.

(** * The claims at concrete inputs

    On the platform of the examples: the scenario of the specification, an
    instance of each property above, and the inputs at which the import
    departs from what the specification says of it. *)

Import examples.
#[local] Existing Instance utc.

Ltac computed := vm_compute; reflexivity.
Ltac each tac := repeat (apply List.Forall_cons; [tac|]); apply List.Forall_nil.

(** The end-to-end scenario of the specification: the import of [deu123]
    stores three facts, of cumulative incidence 0, 5.5 and 6.1; importing
    them again with a record for January 4 adds the fact of January 4
    alone. *)
Example scenario_deu :
  (fun r => (sql.Date r, sql.Cases r, sql.Deaths r, sql.Cumulative r))
    <$> sql.tblCases (tablesOf deuDb)
  = [(time.Date 2021 1 1, 10, 1, {| mantissa := 0; scale := 0 |});
     (time.Date 2021 1 2, 20, 2, {| mantissa := 55; scale := 1 |});
     (time.Date 2021 1 3, 30, 3, {| mantissa := 61; scale := 1 |})] /\
  (fun r => (sql.Date r, sql.Cases r))
    <$> sql.tblCases (tablesOf (fst (ecdc.DataSource_Import
                                       (deu123 ++ [deu "4" 40 4 "7.0"]) deuDb)))
  = [(time.Date 2021 1 1, 10); (time.Date 2021 1 2, 20);
     (time.Date 2021 1 3, 30); (time.Date 2021 1 4, 40)].
Proof. split; computed. Qed.

(** The dates of [deu123] increase. *)
Lemma increasingPerCode_deu123 : @increasingPerCode utc deu123.
Proof.
  intros i j ri rj Hi Hj Hlt Hcode.
  destruct i as [|[|[|i]]], j as [|[|[|j]]]; cbn in Hi, Hj; try discriminate; try lia;
    injection Hi as <-; injection Hj as <-; computed.
Qed.

(** [Import_twice] on the scenario of the specification. *)
Lemma Import_twice_witness :
  exists db1 db2 rows,
    @ecdc.DataSource_Import utc deu123 newDb = (db1, Ok tt) /\
    sql.tblCases (tablesOf db1) = sql.tblCases (tablesOf newDb) ++ rows /\
    Forall2 (fun record row => rowFor record (tablesOf db1) row) deu123 rows /\
    ecdc.DataSource_Import deu123 db1 = (db2, Ok tt) /\
    tablesOf db2 = tablesOf db1.
Proof.
  apply (@Import_twice utc deu123 newDb).
  - computed.
  - apply consistent_empty.
  - each ltac:(split; computed).
  - apply increasingPerCode_deu123.
  - each computed.
Defined.

(** The batch [deu1969] is valid and its dates increase, yet its first
    import into a new database, which succeeds, inserts no row: the date
    is not after the epoch. *)
Lemma Import_twice_before_epoch :
  quiet newDb /\ consistent (tablesOf newDb) /\
  Forall (@wellFormed utc) deu1969 /\ @increasingPerCode utc deu1969 /\
  snd (@ecdc.DataSource_Import utc deu1969 newDb) = Ok tt /\
  sql.tblCases (tablesOf (fst (@ecdc.DataSource_Import utc deu1969 newDb))) = [].
Proof.
  split; [computed|]. split; [apply consistent_empty|].
  split; [each ltac:(split; computed)|]. split; [|split; computed].
  intros [|i] [|j] ri rj Hi Hj Hlt; cbn in Hi, Hj; try discriminate; lia.
Qed.

(** [Import_watermark_filter] on the scenario of the specification. *)
Lemma Import_watermark_filter_witness :
  quiet newDb /\ consistent (tablesOf newDb) /\ Forall (@wellFormed utc) deu123 /\
  exists importer' staged,
    ecdc.importLoop deu123 []
      {| ecdc.db := newDb; ecdc.records := deu123; ecdc.lastRecordCache := ∅ |}
    = (importer', Ok staged) /\
    Forall2 (fun record f =>
               exists c, f = factOf record c /\ countryFor record (tablesIn importer') c)
            (filter (fun record => lastDate (ecdc.CountryCode record) (tablesOf newDb)
                                   < timestampOf record) deu123)
            staged.
Proof.
  split; [computed|]. split; [apply consistent_empty|].
  split; [each ltac:(split; computed)|].
  apply (@Import_watermark_filter utc deu123 newDb).
  - computed.
  - apply consistent_empty.
  - each ltac:(split; computed).
Defined.

(** The record of [deu1969] parses and its code has no stored fact, so that
    [LastRecordDate] answers the epoch; the loop of [Import] does not stage
    it. *)
Lemma Import_skips_date_before_epoch :
  Forall (@wellFormed utc) deu1969 /\
  @datesOf utc "DEU" (tablesOf newDb) = [] /\
  snd (@lib.LastRecordDate utc "DEU" newDb) = Ok lib.epochStart /\
  snd (ecdc.importLoop deu1969 []
         {| ecdc.db := newDb; ecdc.records := deu1969; ecdc.lastRecordCache := ∅ |})
  = Ok [].
Proof.
  split; [each ltac:(split; computed)|].
  split; [computed|]. split; computed.
Qed.

(** [PutCountry_versions] for Germany with a new population, after the
    import of [deu123]. *)
Lemma PutCountry_versions_witness :
  quiet deuDb /\
  exists current,
    @lib.Database_Country utc "DEU" deuDb = (deuDb, Ok current) /\
    match current with
    | None =>
      (forall k, k ∈ sql.tblCountries (tablesOf deuDb) -> sql.Code k <> "DEU") /\
      mintsVersion "DEU" "DE" "Germany" 83166711 "Europe" deuDb
    | Some cur =>
      rowOfCountry cur ∈ sql.tblCountries (tablesOf deuDb) /\
      lib.Code cur = "DEU" /\
      (forall k, k ∈ sql.tblCountries (tablesOf deuDb) -> sql.Code k = "DEU" ->
                 sql.Id k <= lib.ID cur) /\
      ((lib.GeoID cur = "DE" /\ lib.Name cur = "Germany" /\
        lib.Population cur = 83166711 /\ lib.Continent cur = "Europe" ->
        lib.PutCountry "DEU" "DE" "Germany" 83166711 "Europe" deuDb = (deuDb, Ok cur)) /\
       (~ (lib.GeoID cur = "DE" /\ lib.Name cur = "Germany" /\
           lib.Population cur = 83166711 /\ lib.Continent cur = "Europe") ->
        mintsVersion "DEU" "DE" "Germany" 83166711 "Europe" deuDb /\
        forall db' c,
          lib.PutCountry "DEU" "DE" "Germany" 83166711 "Europe" deuDb = (db', Ok c) ->
          lib.ID cur < lib.ID c))
    end.
Proof.
  split; [computed|].
  apply (@PutCountry_versions utc "DEU" "DE" "Germany" 83166711 "Europe" deuDb).
  computed.
Defined.

(** [NewQuery_lookup_kind] at the query "DE". *)
Lemma NewQuery_lookup_kind_witness :
  quiet deuDb /\ lib.QueryType (@lib.NewQuery utc "DE") = lib.CountryQueryByGeoID.
Proof.
  split; [computed|].
  destruct (@NewQuery_lookup_kind utc "DE" 0 deuDb) as (_ & Hgeo & _); [computed|].
  apply Hgeo; computed.
Defined.

(** [Import_aborts_on_malformed] on a batch whose second record has the
    month "Jan". *)
Lemma Import_aborts_on_malformed_witness :
  Exists (@malformed utc) deuBadMonth /\
  exists db' e,
    @ecdc.DataSource_Import utc deuBadMonth newDb = (db', Err e) /\
    sql.tblCases (tablesOf db') = sql.tblCases (tablesOf newDb).
Proof.
  assert (Hbad : Exists (@malformed utc) deuBadMonth).
  { right. left. right. left. computed. }
  split; [exact Hbad|].
  exact (proj1 (@Import_aborts_on_malformed utc deuBadMonth newDb) Hbad).
Defined.

(** [RetrieveRecordsSince_ascending] for Germany, after the import of
    [deu123]. *)
Lemma RetrieveRecordsSince_ascending_witness :
  quiet deuDb /\
  exists db' out,
    @lib.RetrieveRecordsSince utc (lib.NewQuery "DEU") (time.Unix 0) deuDb = (db', Ok out) /\
    StronglySorted Z.le ((fun x => lib.Date (lib.Result x)) <$> out).
Proof.
  split; [computed|].
  destruct (@RetrieveRecordsSince_ascending utc (lib.NewQuery "DEU") (time.Unix 0) deuDb)
    as (db' & out & Hrun & _ & _ & Hsorted & _); [computed|].
  exists db', out. split; [exact Hrun|exact Hsorted].
Defined.

(** [Import_failure_keeps_countries] on a batch that holds the same day
    twice: the batch insert fails on the primary key, and the version of
    Germany minted for the batch stays. *)
Lemma Import_failure_keeps_countries_witness :
  exists importer1 staged db2,
    ecdc.importLoop (ecdc.records deuTwiceImporter) [] deuTwiceImporter
    = (importer1, Ok staged) /\
    lib.ImportRecords staged (ecdc.db importer1) = (db2, Err ConstraintError) /\
    snd (ecdc.Import deuTwiceImporter) = Err ConstraintError /\
    sql.tblCases (tablesOf db2) = sql.tblCases (tablesIn deuTwiceImporter) /\
    exists minted, sql.tblCountries (tablesOf db2)
                   = sql.tblCountries (tablesIn deuTwiceImporter) ++ minted.
Proof.
  destruct (ecdc.importLoop (ecdc.records deuTwiceImporter) [] deuTwiceImporter)
    as [importer1 [staged|e]] eqn:Hloop.
  - destruct (lib.ImportRecords staged (ecdc.db importer1)) as [db2 [[]|e]] eqn:Himport.
    + assert (Herr : snd (ecdc.Import deuTwiceImporter) = Err ConstraintError) by computed.
      unfold ecdc.Import, bind, ecdc.onDb in Herr. rewrite Hloop, Himport in Herr.
      discriminate.
    + assert (Herr : snd (ecdc.Import deuTwiceImporter) = Err ConstraintError) by computed.
      assert (He : e = ConstraintError).
      { unfold ecdc.Import, bind, ecdc.onDb in Herr. rewrite Hloop, Himport in Herr.
        cbn in Herr. congruence. }
      subst e. exists importer1, staged, db2. split; [reflexivity|]. split; [exact Himport|].
      destruct (@Import_failure_keeps_countries utc _ _ _ _ _ Hloop Himport)
        as (_ & _ & Hcases & _ & Hminted & _).
      split; [exact Herr|]. split; [exact Hcases|exact Hminted].
  - assert (Hok : isErr (snd (ecdc.importLoop (ecdc.records deuTwiceImporter) []
                               deuTwiceImporter)) = false) by computed.
    rewrite Hloop in Hok. discriminate.
Defined.

(** [NewQuery_routes_every_string] at the query "DE". *)
Lemma NewQuery_routes_every_string_witness :
  String.length "DE" = 2%nat /\
  @lib.NewQuery utc "DE" = {| lib.Query := "DE"; lib.QueryType := lib.CountryQueryByGeoID |}.
Proof.
  split; [computed|].
  destruct (@NewQuery_routes_every_string utc "DE") as (_ & Hgeo & _).
  apply Hgeo; computed.
Defined.

(** C8. Terminal stream error, where the code departs from it: a step of
    the cursor that fails ends the stream with no error element. With the
    three facts of Germany stored and the second step failing, the stream
    is the element of January 1 alone, an element without error, and the
    channel is closed; the two other facts and the error are lost. *)
Theorem RetrieveRecords_read_error_unreported :
  length (sql.tblCases (tablesOf deuDbFailingStep)) = 3%nat /\
  match snd (@lib.RetrieveRecords utc (lib.NewQuery "DEU") deuDbFailingStep) with
  | Ok [first] =>
    lib.Error first = None /\ lib.Date (lib.Result first) = time.Date 2021 1 1
  | _ => False
  end.
Proof. split; [computed|]. vm_compute. split; reflexivity. Qed.
